(** * MpesuPeachServer: the card-number checks and the webhook signature check

    A shallow embedding of [src/server.js]: the helper [luhnCheck], the card
    validation stage of [POST /api/checkout] and the handler of
    [POST /api/webhook], together with the parts of the runtime they call
    (string primitives, the card-validator package, Node's crypto HMAC). *)

From Stdlib Require Import ZArith List String Ascii Bool Lia DecimalString.
From Stdlib Require Import PrimFloat.
Import ListNotations.
Open Scope string_scope.
Open Scope list_scope.
Open Scope Z_scope.

(** ** JavaScript values used by the handlers *)

(** A JavaScript string is a sequence of UTF-16 code units. *)
Definition jsstring := list Z.

(** A string literal of the source, as code units (ASCII only). *)
Definition str (s : string) : jsstring :=
  map (fun a => Z.of_N (N_of_ascii a)) (list_ascii_of_string s).

(** A JavaScript number, as far as the handlers need it: an integer that is
    exactly representable, or [NaN].  Every sum below is at most nine times a
    string length, far below 2^53. *)
Inductive number :=
| NaN
| Num (z : Z).

Definition num_add (a b : number) : number :=
  match a, b with
  | Num x, Num y => Num (x + y)
  | _, _ => NaN
  end.

Definition num_sub (a b : number) : number :=
  match a, b with
  | Num x, Num y => Num (x - y)
  | _, _ => NaN
  end.

Definition num_mul (a b : number) : number :=
  match a, b with
  | Num x, Num y => Num (x * y)
  | _, _ => NaN
  end.

(** [a % b]: the remainder takes the sign of the dividend; [x % 0] is NaN. *)
Definition num_rem (a b : number) : number :=
  match a, b with
  | Num x, Num y => if y =? 0 then NaN else Num (Z.rem x y)
  | _, _ => NaN
  end.

(** [a > b], [a >= b], [a <= b], [a < b]: false as soon as one side is NaN. *)
Definition num_gt (a b : number) : bool :=
  match a, b with
  | Num x, Num y => y <? x
  | _, _ => false
  end.

Definition num_ge (a b : number) : bool :=
  match a, b with
  | Num x, Num y => y <=? x
  | _, _ => false
  end.

Definition num_le (a b : number) : bool := num_ge b a.

(** [a === b] on numbers: NaN is not equal to anything. *)
Definition num_strict_eq (a b : number) : bool :=
  match a, b with
  | Num x, Num y => x =? y
  | _, _ => false
  end.

(** [a === b] on strings: the same code units in the same order. *)
Fixpoint string_strict_eq (a b : jsstring) : bool :=
  match a, b with
  | [], [] => true
  | x :: a', y :: b' => (x =? y) && string_strict_eq a' b'
  | _, _ => false
  end.

(** The class [\s] of a regular expression (and the white space that
    [parseInt] skips): TAB, LF, VT, FF, CR, SPACE, NBSP, U+1680,
    U+2000..U+200A, U+2028, U+2029, U+202F, U+205F, U+3000 and U+FEFF. *)
Definition is_space (c : Z) : bool :=
  ((9 <=? c) && (c <=? 13)) || (c =? 32) || (c =? 160) || (c =? 5760)
  || ((8192 <=? c) && (c <=? 8202)) || (c =? 8232) || (c =? 8233)
  || (c =? 8239) || (c =? 8287) || (c =? 12288) || (c =? 65279).

(** The class [\d]: the ten ASCII digits. *)
Definition is_digit (c : Z) : bool := (48 <=? c) && (c <=? 57).

Definition hyphen : Z := 45.

(** [s.replace(/\s+/g, '')]: every white-space character is removed. *)
Definition strip_whitespace (s : jsstring) : jsstring :=
  filter (fun c => negb (is_space c)) s.

(** [s.replace(/-|\s/g, '')]. *)
Definition strip_hyphens_whitespace (s : jsstring) : jsstring :=
  filter (fun c => negb ((c =? hyphen) || is_space c)) s.

(** [/^\d*$/.test(s)]. *)
Definition all_digits (s : jsstring) : bool := forallb is_digit s.

(** [s.substr(0, n)] and [s.substring(0, n)] for [n >= 0]. *)
Definition substr0 (s : jsstring) (n : nat) : jsstring := firstn n s.

(** [parseInt(s, 10)]: leading white space is skipped, then an optional sign,
    then the longest run of decimal digits; no digit at all gives NaN. *)
Fixpoint skip_space (s : jsstring) : jsstring :=
  match s with
  | c :: s' => if is_space c then skip_space s' else s
  | [] => []
  end.

Fixpoint digits_value (s : jsstring) (seen : bool) (acc : Z) : number :=
  match s with
  | c :: s' =>
      if is_digit c then digits_value s' true (10 * acc + (c - 48))
      else if seen then Num acc else NaN
  | [] => if seen then Num acc else NaN
  end.

Definition parseInt10 (s : jsstring) : number :=
  match skip_space s with
  | c :: s' =>
      if c =? 45 then num_sub (Num 0) (digits_value s' false 0)
      else if c =? 43 then digits_value s' false 0
      else digits_value (c :: s') false 0
  | [] => NaN
  end.

(** ** [luhnCheck] (server.js, lines 31-46) *)

(** One turn of the loop body, on the character [strippedNumber.charAt(i)];
    the state is [(sum, shouldDouble)]. *)
Definition luhn_step (st : number * bool) (c : Z) : number * bool :=
  let '(sum, shouldDouble) := st in
  let digit := parseInt10 [c] in
  let digit :=
    if shouldDouble then
      let digit := num_mul digit (Num 2) in
      if num_gt digit (Num 9) then num_sub digit (Num 9) else digit
    else digit in
  (num_add sum digit, negb shouldDouble).

(** The loop runs [i] from [length - 1] down to [0]: a left fold over the
    reversed string. *)
Definition luhn_loop (strippedNumber : jsstring) : number * bool :=
  fold_left luhn_step (rev strippedNumber) (Num 0, false).

Definition luhnCheck (cardNumber : jsstring) : bool :=
  let strippedNumber := strip_whitespace cardNumber in
  let '(sum, _) := luhn_loop strippedNumber in
  num_strict_eq (num_rem sum (Num 10)) (Num 0).

(** ** The Luhn relation as the specification words it

    Starting from the rightmost digit and moving left, every second digit
    (positions 2, 4, 6, ... from the right) is doubled, 9 is subtracted from a
    doubled digit that exceeds 9, and all digits are summed. *)

(** The decimal digits that occur in a string, left to right. *)
Definition digit_values (s : jsstring) : list Z :=
  map (fun c => c - 48) (filter is_digit s).

Definition luhn_weight (double : bool) (d : Z) : Z :=
  if double then (if 9 <? 2 * d then 2 * d - 9 else 2 * d) else d.

(** The weighted sum of digits listed from the rightmost one; [double] tells
    whether the first of them is at an even position. *)
Fixpoint weighted_sum_from_right (ds : list Z) (double : bool) : Z :=
  match ds with
  | [] => 0
  | d :: ds' => luhn_weight double d + weighted_sum_from_right ds' (negb double)
  end.

Definition weighted_digit_sum (s : jsstring) : Z :=
  weighted_sum_from_right (rev (digit_values (strip_whitespace s))) false.

Definition luhn_valid (s : jsstring) : bool :=
  weighted_digit_sum s mod 10 =? 0.

(** ** The card-validator package, as [valid.number] uses it

    [server.js] imports [valid] from card-validator and calls
    [valid.number(cardNumber)] with no options.  That function looks the
    number up in the brand table of the credit-card-type package and runs the
    package's own Luhn routine.  Both packages are dependencies of the
    server, not part of [server.js]; the two modules below follow their
    published sources (credit-card-type: the card table, [matches],
    [add-matching-cards-to-results], [find-best-match] and the lookup itself;
    card-validator: [card-number] and [luhn-10]). *)

Module CreditCardType.

(** A prefix pattern of the table: one number, or a range [[min, max]]. *)
Inductive pattern :=
| Exact (p : Z)
| Range (min max : Z).

Record CardType := {
  type : string;
  patterns : list pattern;
  lengths : list Z
}.

(** [String(n)] for the integers of the table. *)
Definition String_of (n : Z) : jsstring :=
  str (NilZero.string_of_int (Z.to_int n)).

Definition matchesRange (cardNumber : jsstring) (min max : Z) : bool :=
  let maxLengthToCheck := List.length (String_of min) in
  let substr := substr0 cardNumber maxLengthToCheck in
  let integerRepresentationOfCardNumber := parseInt10 substr in
  let min := parseInt10 (substr0 (String_of min) (List.length substr)) in
  let max := parseInt10 (substr0 (String_of max) (List.length substr)) in
  num_ge integerRepresentationOfCardNumber min
  && num_le integerRepresentationOfCardNumber max.

Definition matchesPattern (cardNumber : jsstring) (pattern : Z) : bool :=
  let pattern := String_of pattern in
  string_strict_eq (substr0 pattern (List.length cardNumber))
                   (substr0 cardNumber (List.length pattern)).

Definition matches (cardNumber : jsstring) (p : pattern) : bool :=
  match p with
  | Range min max => matchesRange cardNumber min max
  | Exact p => matchesPattern cardNumber p
  end.

Definition patternLength (p : pattern) : nat :=
  match p with
  | Range min _ => List.length (String_of min)
  | Exact p => List.length (String_of p)
  end.

(** A result of the lookup: the brand and, when the number is at least as
    long as the pattern it matched, that pattern's length. *)
Definition result := (CardType * option nat)%type.

(** [addMatchingCardsToResults]: the first pattern of the brand that
    matches decides, later ones are not tried. *)
Fixpoint firstMatch (cardNumber : jsstring) (ps : list pattern)
  : option (option nat) :=
  match ps with
  | [] => None
  | p :: ps' =>
      if matches cardNumber p then
        Some (if (patternLength p <=? List.length cardNumber)%nat
              then Some (patternLength p) else None)
      else firstMatch cardNumber ps'
  end.

Definition addMatchingCardsToResults (cardNumber : jsstring)
    (cardConfiguration : CardType) (results : list result) : list result :=
  match firstMatch cardNumber (patterns cardConfiguration) with
  | Some matchStrength => results ++ [(cardConfiguration, matchStrength)]
  | None => results
  end.

Definition hasEnoughResultsToDetermineBestMatch (results : list result)
  : bool :=
  let numberOfResultsWithMaxStrengthProperty :=
    List.length (filter (fun r => match snd r with Some _ => true | None => false end)
                   results) in
  (0 <? numberOfResultsWithMaxStrengthProperty)%nat
  && (numberOfResultsWithMaxStrengthProperty =? List.length results)%nat.

Definition strength (r : result) : nat :=
  match snd r with Some n => n | None => 0%nat end.

(** [findBestMatch]: the first result of greatest match strength, when every
    result has one. *)
Definition findBestMatch (results : list result) : option result :=
  if hasEnoughResultsToDetermineBestMatch results then
    match results with
    | [] => None
    | r :: rs =>
        Some (fold_left
                (fun bestMatch result =>
                   if (strength bestMatch <? strength result)%nat
                   then result else bestMatch)
                rs r)
    end
  else None.

(** The brand table, in the order in which the brands are tested. *)
Definition cardTypes : list CardType := [
  {| type := "visa";
     patterns := [Exact 4];
     lengths := [16; 18; 19] |};
  {| type := "mastercard";
     patterns := [Range 51 55; Range 2221 2229; Range 223 229;
                  Range 23 26; Range 270 271; Exact 2720];
     lengths := [16] |};
  {| type := "american-express";
     patterns := [Exact 34; Exact 37];
     lengths := [15] |};
  {| type := "diners-club";
     patterns := [Range 300 305; Exact 36; Exact 38; Exact 39];
     lengths := [14; 16; 19] |};
  {| type := "discover";
     patterns := [Exact 6011; Range 644 649; Exact 65];
     lengths := [16; 19] |};
  {| type := "jcb";
     patterns := [Exact 2131; Exact 1800; Range 3528 3589];
     lengths := [16; 17; 18; 19] |};
  {| type := "unionpay";
     patterns := [Exact 620; Range 62100 62182; Range 62184 62187;
                  Range 62185 62197; Range 62200 62205;
                  Range 622010 622999; Exact 622018; Range 62207 62209;
                  Range 623 626; Exact 6270; Exact 6272; Exact 6276;
                  Range 627700 627779; Range 627781 627799;
                  Range 6282 6289; Exact 6291; Exact 6292; Exact 810;
                  Range 8110 8131; Range 8132 8151; Range 8152 8163;
                  Range 8164 8171];
     lengths := [14; 15; 16; 17; 18; 19] |};
  {| type := "maestro";
     patterns := [Exact 493698; Range 500000 504174; Range 504176 506698;
                  Range 506779 508999; Range 56 59; Exact 63; Exact 67;
                  Exact 6];
     lengths := [12; 13; 14; 15; 16; 17; 18; 19] |};
  {| type := "elo";
     patterns := [Exact 401178; Exact 401179; Exact 438935; Exact 457631;
                  Exact 457632; Exact 431274; Exact 451416; Exact 457393;
                  Exact 504175; Range 506699 506778; Range 509000 509999;
                  Exact 627780; Exact 636297; Exact 636368;
                  Range 650031 650033; Range 650035 650051;
                  Range 650405 650439; Range 650485 650538;
                  Range 650541 650598; Range 650700 650718;
                  Range 650720 650727; Range 650901 650978;
                  Range 651652 651679; Range 655000 655019;
                  Range 655021 655058];
     lengths := [16] |};
  {| type := "mir";
     patterns := [Range 2200 2204];
     lengths := [16; 17; 18; 19] |};
  {| type := "hiper";
     patterns := [Exact 637095; Exact 63737423; Exact 63743358;
                  Exact 637568; Exact 637599; Exact 637609; Exact 637612];
     lengths := [16] |};
  {| type := "hipercard";
     patterns := [Exact 606282];
     lengths := [16] |}
].

(** [creditCardType(cardNumber)] over a brand table: every brand for the
    empty string, the best match alone when there is one, else every brand
    that matched. *)
Definition creditCardType (types : list CardType) (cardNumber : jsstring)
  : list CardType :=
  match cardNumber with
  | [] => types
  | _ =>
      let results :=
        fold_left (fun results cardConfiguration =>
                     addMatchingCardsToResults cardNumber cardConfiguration
                                               results)
                  types [] in
      match findBestMatch results with
      | Some bestMatch => [fst bestMatch]
      | None => map fst results
      end
  end.

End CreditCardType.

Module CardValidator.
Import CreditCardType.

Record verification := {
  card : option CardType;
  isPotentiallyValid : bool;
  isValid : bool
}.

(** The package's own checksum routine, [luhn10]. *)
Definition luhn10_step (st : number * bool) (c : Z) : number * bool :=
  let '(sum, alt) := st in
  let num := parseInt10 [c] in
  let num :=
    if alt then
      let num := num_mul num (Num 2) in
      if num_gt num (Num 9) then num_add (num_rem num (Num 10)) (Num 1)
      else num
    else num in
  (num_add sum num, negb alt).

Definition luhn10 (identifier : jsstring) : bool :=
  let '(sum, _) := fold_left luhn10_step (rev identifier) (Num 0, false) in
  num_strict_eq (num_rem sum (Num 10)) (Num 0).

(** [Math.max.apply(null, lengths)]; an empty list gives [-Infinity], below
    every length, which [-1] stands for. *)
Definition maxOf (lengths : list Z) : Z := fold_right Z.max (-1) lengths.

(** [number(value)] with no options, over a brand table. *)
Definition number_with (types : list CardType) (value : jsstring)
  : verification :=
  let testCardValue := strip_hyphens_whitespace value in
  if negb (all_digits testCardValue) then
    {| card := None; isPotentiallyValid := false; isValid := false |}
  else
    match creditCardType types testCardValue with
    | [] => {| card := None; isPotentiallyValid := false; isValid := false |}
    | [cardType] =>
        let isValid :=
          if String.eqb (type cardType) "unionpay" then true
          else luhn10 testCardValue in
        let maxLength := maxOf (lengths cardType) in
        let len := Z.of_nat (List.length testCardValue) in
        if existsb (fun l => l =? len) (lengths cardType) then
          {| card := Some cardType;
             isPotentiallyValid := (len <? maxLength) || isValid;
             isValid := isValid |}
        else
          {| card := Some cardType;
             isPotentiallyValid := len <? maxLength;
             isValid := false |}
    | _ => {| card := None; isPotentiallyValid := true; isValid := false |}
    end.

Definition number : jsstring -> verification := number_with cardTypes.

End CardValidator.

(** Three facts of the brand table, as one check: no length is above 19, no
    pattern has more than 8 digits, and a brand named american-express has
    the length 15 only. *)
Definition table_checks : bool :=
  forallb (fun t =>
             forallb (fun l => l <=? 19) (CreditCardType.lengths t)
             && forallb (fun p => (CreditCardType.patternLength p <=? 8)%nat)
                        (CreditCardType.patterns t)
             && (negb (String.eqb (CreditCardType.type t) "american-express")
                 || forallb (fun l => l =? 15) (CreditCardType.lengths t)))
          CreditCardType.cardTypes.

(** ** Node's crypto: HMAC with SHA-256, hexadecimal digests

    [crypto.createHmac('sha256', key).update(data).digest('hex')], with
    SHA-256 as in FIPS 180-4 and the HMAC construction of RFC 2104. *)

(** A [Buffer]: a sequence of bytes. *)
Definition Buffer := list Z.

Module SHA256.

Definition mask32 : Z := 0xffffffff.
Definition add32 (x y : Z) : Z := (x + y) mod 2 ^ 32.
Definition rotr (n x : Z) : Z :=
  Z.lor (Z.shiftr x n) (Z.land (Z.shiftl x (32 - n)) mask32).
Definition shr (n x : Z) : Z := Z.shiftr x n.
Definition not32 (x : Z) : Z := Z.lxor x mask32.

Definition Ch (x y z : Z) : Z := Z.lxor (Z.land x y) (Z.land (not32 x) z).
Definition Maj (x y z : Z) : Z :=
  Z.lxor (Z.lxor (Z.land x y) (Z.land x z)) (Z.land y z).
Definition Sigma0 (x : Z) : Z := Z.lxor (Z.lxor (rotr 2 x) (rotr 13 x)) (rotr 22 x).
Definition Sigma1 (x : Z) : Z := Z.lxor (Z.lxor (rotr 6 x) (rotr 11 x)) (rotr 25 x).
Definition sigma0 (x : Z) : Z := Z.lxor (Z.lxor (rotr 7 x) (rotr 18 x)) (shr 3 x).
Definition sigma1 (x : Z) : Z := Z.lxor (Z.lxor (rotr 17 x) (rotr 19 x)) (shr 10 x).

(** The constants of FIPS 180-4 by their definition: the first 32 bits of
    the fractional parts of the cube roots of the first sixty-four primes
    (section 4.2.2) and of the square roots of the first eight (5.3.3). *)
Definition is_prime (n : Z) : bool :=
  (1 <? n)
  && forallb (fun d => negb (n mod Z.of_nat d =? 0)) (seq 2 (Z.to_nat n - 2)).

Definition first_primes (count : nat) : list Z :=
  firstn count (filter is_prime (map Z.of_nat (seq 2 310))).

(** The integer cube root of [n], found bit by bit from bit [bits - 1]. *)
Fixpoint cube_root_bits (bits : nat) (n root : Z) : Z :=
  match bits with
  | O => root
  | S b =>
      let candidate := root + 2 ^ Z.of_nat b in
      cube_root_bits b n
        (if candidate * candidate * candidate <=? n then candidate else root)
  end.

Definition cube_root_fraction (p : Z) : Z :=
  cube_root_bits 36 (p * 2 ^ 96) 0 mod 2 ^ 32.

Definition square_root_fraction (p : Z) : Z :=
  Z.sqrt (p * 2 ^ 64) mod 2 ^ 32.

Definition K : list Z :=
  Eval vm_compute in map cube_root_fraction (first_primes 64).

Definition initial_hash : list Z :=
  Eval vm_compute in map square_root_fraction (first_primes 8).

(** [n] as [k] bytes, most significant first. *)
Fixpoint be_bytes (k : nat) (n : Z) : list Z :=
  match k with
  | O => []
  | S k' => (Z.shiftr n (8 * Z.of_nat k')) mod 256 :: be_bytes k' n
  end.

(** Padding: the bit 1, zero bits up to 56 modulo 64 bytes, then the length
    of the message in bits as a 64-bit integer. *)
Definition pad (msg : Buffer) : Buffer :=
  let len := Z.of_nat (List.length msg) in
  let zeros := Z.to_nat ((55 - len) mod 64) in
  msg ++ [0x80] ++ repeat 0 zeros ++ be_bytes 8 (8 * len).

Definition word_of (b3 b2 b1 b0 : Z) : Z :=
  Z.lor (Z.lor (Z.shiftl b3 24) (Z.shiftl b2 16)) (Z.lor (Z.shiftl b1 8) b0).

Fixpoint words_of (n : nat) (bs : list Z) : list Z :=
  match n, bs with
  | S n', b3 :: b2 :: b1 :: b0 :: bs' => word_of b3 b2 b1 b0 :: words_of n' bs'
  | _, _ => []
  end.

(** The message schedule: sixteen words of the block, then forty-eight more. *)
Fixpoint extend (n : nat) (W : list Z) : list Z :=
  match n with
  | O => W
  | S n' =>
      let t := List.length W in
      let w := add32 (add32 (sigma1 (nth (t - 2) W 0)) (nth (t - 7) W 0))
                     (add32 (sigma0 (nth (t - 15) W 0)) (nth (t - 16) W 0)) in
      extend n' (W ++ [w])
  end.

Definition schedule (block : list Z) : list Z := extend 48 (words_of 16 block).

Record regs := { ra : Z; rb : Z; rc : Z; rd : Z; re : Z; rf : Z; rg : Z; rh : Z }.

Definition round (r : regs) (kw : Z * Z) : regs :=
  let '(k, w) := kw in
  let T1 := add32 (add32 (add32 (rh r) (Sigma1 (re r)))
                         (add32 (Ch (re r) (rf r) (rg r)) k)) w in
  let T2 := add32 (Sigma0 (ra r)) (Maj (ra r) (rb r) (rc r)) in
  {| ra := add32 T1 T2; rb := ra r; rc := rb r; rd := rc r;
     re := add32 (rd r) T1; rf := re r; rg := rf r; rh := rg r |}.

Definition compress (H : list Z) (block : list Z) : list Z :=
  match H with
  | [a; b; c; d; e; f; g; h] =>
      let r := fold_left round (combine K (schedule block))
                 {| ra := a; rb := b; rc := c; rd := d;
                    re := e; rf := f; rg := g; rh := h |} in
      [add32 a (ra r); add32 b (rb r); add32 c (rc r); add32 d (rd r);
       add32 e (re r); add32 f (rf r); add32 g (rg r); add32 h (rh r)]
  | _ => H
  end.

Fixpoint blocks (n : nat) (bs : list Z) : list (list Z) :=
  match n with
  | O => []
  | S n' => firstn 64 bs :: blocks n' (skipn 64 bs)
  end.

Definition sha256 (msg : Buffer) : Buffer :=
  let padded := pad msg in
  let H := fold_left compress (blocks (List.length padded / 64) padded)
                     initial_hash in
  flat_map (be_bytes 4) H.

(** HMAC (RFC 2104) with a block of 64 bytes. *)
Definition hmac_key (key : Buffer) : Buffer :=
  let key := if (64 <? List.length key)%nat then sha256 key else key in
  key ++ repeat 0 (64 - List.length key).

Definition hmac (key data : Buffer) : Buffer :=
  let k := hmac_key key in
  let ipad := map (fun b => Z.lxor b 0x36) k in
  let opad := map (fun b => Z.lxor b 0x5c) k in
  sha256 (opad ++ sha256 (ipad ++ data)).

End SHA256.

(** [buf.toString('hex')] and [digest('hex')]: two lowercase hexadecimal
    digits for each byte. *)
Definition hex_digit (d : Z) : Z := if d <? 10 then 48 + d else 87 + d.

Definition hex (bytes : Buffer) : jsstring :=
  flat_map (fun b => [hex_digit (b / 16); hex_digit (b mod 16)]) bytes.

(** A lowercase hexadecimal digit: [0-9a-f]. *)
Definition is_lower_hex (c : Z) : bool :=
  is_digit c || ((97 <=? c) && (c <=? 102)).

(** [Buffer.from(s, 'utf8')]: a surrogate pair is one code point of four
    bytes, a lone surrogate is replaced by U+FFFD. *)
Definition is_high_surrogate (c : Z) : bool := (0xD800 <=? c) && (c <=? 0xDBFF).
Definition is_low_surrogate (c : Z) : bool := (0xDC00 <=? c) && (c <=? 0xDFFF).
Definition replacement : Buffer := [0xEF; 0xBF; 0xBD].

Fixpoint utf8_encode (s : jsstring) : Buffer :=
  match s with
  | [] => []
  | c :: s' =>
      if c <? 0x80 then c :: utf8_encode s'
      else if c <? 0x800 then
        [0xC0 + c / 64; 0x80 + c mod 64] ++ utf8_encode s'
      else if is_high_surrogate c then
        match s' with
        | d :: s'' =>
            if is_low_surrogate d then
              let cp := 0x10000 + (c - 0xD800) * 1024 + (d - 0xDC00) in
              [0xF0 + cp / 262144; 0x80 + (cp / 4096) mod 64;
               0x80 + (cp / 64) mod 64; 0x80 + cp mod 64] ++ utf8_encode s''
            else replacement ++ utf8_encode s'
        | [] => replacement
        end
      else if is_low_surrogate c then replacement ++ utf8_encode s'
      else
        [0xE0 + c / 4096; 0x80 + (c / 64) mod 64; 0x80 + c mod 64]
        ++ utf8_encode s'
  end.

(** ** Responses, exceptions and the log *)

(** What a handler sends: [res.status(n).json({...})] with the fields of the
    object in order, or [res.status(n).send(text)]. *)
Inductive response :=
| json (status : Z) (fields : list (string * string))
| send (status : Z) (text : string).

Inductive error :=
| TypeError (message : string)
| SyntaxError (message : string).

(** How a block of a handler ends: it has sent a response and returned, it
    falls through to the statements after it, or it throws. *)
Inductive completion :=
| Responds (r : response)
| Continues
| Throws (e : error).

(** ** The card validation of [POST /api/checkout] (server.js, lines 72-110) *)

Section Checkout.

(** [valid.number], the function of the card-validator package. *)
Variable valid_number : jsstring -> CardValidator.verification.

(** [payload.card.number] is taken as a string; the empty string is falsy, so
    the block is skipped for it, as it is when the field is absent. *)
Definition validateCard (number : jsstring) : completion :=
  match number with
  | [] => Continues
  | _ =>
      let cardNumber := strip_whitespace number in
      let numberValidation := valid_number cardNumber in
      if negb (CardValidator.isPotentiallyValid numberValidation) then
        Responds (json 400 [("error", "Invalid card format");
                            ("details", "The card number format is not valid")])
      else if negb (CardValidator.isValid numberValidation) then
        Responds (json 400 [("error", "Card validation failed");
                            ("details", "The provided card number failed validation checks")])
      else
        match CardValidator.card numberValidation with
        | None => Throws (TypeError "Cannot read properties of null (reading 'type')")
        | Some card =>
            let type := CreditCardType.type card in
            if (String.eqb type "visa" || String.eqb type "mastercard"
                || String.eqb type "discover")
               && negb (Z.of_nat (List.length cardNumber) =? 16) then
              Responds (json 400 [("error", "Invalid card length");
                                  ("details", (type ++ " cards must be 16 digits")%string)])
            else if String.eqb type "american-express"
                    && negb (Z.of_nat (List.length cardNumber) =? 15) then
              Responds (json 400 [("error", "Invalid card length");
                                  ("details", "American Express cards must be 15 digits")])
            else if negb (luhnCheck cardNumber) then
              Responds (json 400 [("error", "Invalid card number");
                                  ("details", "The card number failed the Luhn algorithm check")])
            else Continues
        end
  end.

(** The block inside the handler's [try]: what it throws is answered by the
    [catch] with status 500. *)
Definition checkout_card_stage (number : jsstring) : completion :=
  match validateCard number with
  | Throws (TypeError m) | Throws (SyntaxError m) =>
      Responds (json 500 [("error", "Internal server error"); ("message", m)])
  | c => c
  end.

End Checkout.

(** The error kinds of the card path, as the specification names them, read
    off the [error] field of a response: the format check (line 76), the
    length check by brand (lines 89 and 97), and the two checks of the number
    itself (lines 82 and 104). *)
Inductive CardValidationError :=
| InvalidFormat
| InvalidLength
| ChecksumFailed.

Definition card_error_kind (r : response) : option CardValidationError :=
  match r with
  | json 400 (("error", e) :: _) =>
      if String.eqb e "Invalid card format" then Some InvalidFormat
      else if String.eqb e "Invalid card length" then Some InvalidLength
      else if String.eqb e "Card validation failed" then Some ChecksumFailed
      else if String.eqb e "Invalid card number" then Some ChecksumFailed
      else None
  | _ => None
  end.

(** [validateCard] fails with kind [k]. *)
Definition fails_with (c : completion) (k : CardValidationError) : Prop :=
  exists r, c = Responds r /\ card_error_kind r = Some k.

(** The length rule by brand, as the specification words it: visa,
    mastercard and discover have exactly 16 digits, american-express exactly
    15, other brands (and no brand) are not constrained. *)
Definition length_by_brand_ok (brand : option string) (len : Z) : bool :=
  match brand with
  | Some b =>
      if String.eqb b "visa" || String.eqb b "mastercard"
         || String.eqb b "discover" then len =? 16
      else if String.eqb b "american-express" then len =? 15
      else true
  | None => true
  end.

(** The brand that [valid.number] detects, if it settles on one. *)
Definition detected_brand (v : CardValidator.verification) : option string :=
  option_map CreditCardType.type (CardValidator.card v).

(** The format rule as the specification words it: the canonical string
    consists of digits only and has between 12 and 19 of them. *)
Definition format_ok (s : jsstring) : bool :=
  let canonical := strip_whitespace s in
  all_digits canonical
  && (12 <=? Z.of_nat (List.length canonical))
  && (Z.of_nat (List.length canonical) <=? 19).

(** ** The handler of [POST /api/webhook] (server.js, lines 219-260) *)

(** What the handler does besides answering: lines written to the console
    (the first argument of the call), HMAC computations, JSON parsing. *)
Inductive event :=
| ConsoleError (message : string)
| ConsoleLog (message : string)
| HmacComputed (key data : Buffer)
| JsonParsed (text : jsstring).

(** A computation of the handler: the events so far, and a value or a thrown
    error. *)
Definition M (A : Type) : Type := (list event * (A + error))%type.

Definition ret {A} (a : A) : M A := ([], inl a).
Definition throw {A} (e : error) : M A := ([], inr e).
Definition tell (e : event) : M unit := ([e], inl tt).

Definition bind {A B} (m : M A) (k : A -> M B) : M B :=
  match m with
  | (t, inl a) => let '(t', r) := k a in (t ++ t', r)
  | (t, inr e) => (t, inr e)
  end.

Definition try_catch {A} (m : M A) (handler : error -> M A) : M A :=
  match m with
  | (t, inr e) => let '(t', r) := handler e in (t ++ t', r)
  | _ => m
  end.

Notation "x <- m ;; k" := (bind m (fun x => k))
  (at level 61, m at next level, right associativity).
Notation "m ;;; k" := (bind m (fun _ => k))
  (at level 61, right associativity).

(** [crypto.createHmac('sha256', key).update(data).digest('hex')].  A key
    that is [undefined] makes [createHmac] throw. *)
Definition createHmac_sha256_hex (key : option jsstring) (data : Buffer)
  : M jsstring :=
  match key with
  | None => throw (TypeError "The key argument must be of type string")
  | Some key =>
      tell (HmacComputed (utf8_encode key) data) ;;;
      ret (hex (SHA256.hmac (utf8_encode key) data))
  end.

Section Webhook.

(** The values of [JSON.parse], the decoding [buf.toString()] and
    [JSON.parse] itself, which returns nothing where it throws. *)
Variable json_value : Type.
Variable Buffer_toString : Buffer -> jsstring.
Variable JSON_parse : jsstring -> option json_value.

Definition JSON_parse_text (text : jsstring) : M json_value :=
  tell (JsonParsed text) ;;;
  match JSON_parse text with
  | Some v => ret v
  | None => throw (SyntaxError "Unexpected token in JSON")
  end.

(** What the handler finds in [req.body]: the raw bytes, when
    [bodyParser.raw] has read the body (what line 218 intends); the parsed
    object or array, when [bodyParser.json()] has read it; or what is there
    when no parser has read a body, [{}] or [undefined]. *)
Inductive req_body :=
| raw_body (data : Buffer)
| parsed_body (v : json_value)
| no_body.

(** [crypto.createHmac('sha256', key).update(req.body).digest('hex')]:
    [update] takes a string, a Buffer, a TypedArray or a DataView and throws
    on every other value. *)
Definition hmac_of_body (key : option jsstring) (body : req_body)
  : M jsstring :=
  match key with
  | None => throw (TypeError "The key argument must be of type string")
  | Some key =>
      match body with
      | raw_body data => createHmac_sha256_hex (Some key) data
      | parsed_body _ | no_body =>
          throw (TypeError "The data argument must be of type string or an instance of Buffer, TypedArray, or DataView")
      end
  end.

(** [signature] is [req.headers['peach-signature']], [webhookSecret] is
    [process.env.PEACH_WEBHOOK_SECRET] (either may be undefined) and [body]
    is [req.body].  The statements after the signature is computed are
    reached with a raw body only. *)
Definition webhook (signature webhookSecret : option jsstring)
    (body : req_body) : M response :=
  match signature with
  | None | Some [] =>
      tell (ConsoleError "Missing Peach-Signature header") ;;;
      ret (send 400 "Missing signature header")
  | Some signature =>
      computedSignature <- hmac_of_body webhookSecret body ;;
      match body with
      | raw_body data =>
          if negb (string_strict_eq computedSignature signature) then
            tell (ConsoleError "Invalid webhook signature") ;;;
            ret (send 401 "Invalid signature")
          else
            parsed <- try_catch
                        (eventData <- JSON_parse_text (Buffer_toString data) ;;
                         ret (Some eventData))
                        (fun err =>
                           tell (ConsoleError "Error parsing webhook JSON:") ;;;
                           ret None) ;;
            match parsed with
            | None => ret (send 400 "Invalid JSON")
            | Some eventData =>
                tell (ConsoleLog "Received webhook event:") ;;;
                ret (send 200 "Webhook received")
            end
      | parsed_body _ | no_body =>
          throw (TypeError "The data argument must be of type string or an instance of Buffer, TypedArray, or DataView")
      end
  end.

(** *** The route, with the middleware that runs before the handler

    Line 22 registers [bodyParser.json()] for every route; line 219 puts
    [bodyParser.raw({ type: 'application/json' })] before the handler.  For a
    request with a body and the content type application/json the first
    reads the body, checks its size and its first character (it is strict:
    an object or an array), and parses it; the second then finds the body
    read and leaves [req.body] as it is.  For every other request neither
    reads the body.  An error of the middleware goes to Express, which
    answers with the status of the error without calling the handler: 415
    for a charset that is not utf-8 or a content encoding that the parser
    does not know, 413 for a body above the limit, 400 for a body that does
    not parse. *)

(** The decoding of the body by body-parser (utf-8). *)
Variable bodyParser_decode : Buffer -> jsstring.

(** The default limit, '100kb'. *)
Definition bodyParser_limit : Z := 102400.

(** The first character that is not JSON white space. *)
Fixpoint firstchar (text : jsstring) : option Z :=
  match text with
  | [] => None
  | c :: rest =>
      if (c =? 32) || (c =? 9) || (c =? 10) || (c =? 13) then firstchar rest
      else Some c
  end.

(** The strict check: the text starts with [{] or [[]. *)
Definition strict_json (text : jsstring) : bool :=
  match firstchar text with
  | Some c => (c =? 123) || (c =? 91)
  | None => false
  end.

(** What the two parsers leave in [req.body] for a request with the bytes
    [raw] as its body, or the status of the error they raise;
    [json_content_type] says that the content type is application/json,
    [supported] that the charset and the content encoding are ones the
    parser reads. *)
Definition bodyParser_json_then_raw (json_content_type supported : bool)
    (raw : Buffer) : list event * (req_body + Z) :=
  if json_content_type && (0 <? Z.of_nat (List.length raw)) then
    if negb supported then ([], inr 415)
    else if bodyParser_limit <? Z.of_nat (List.length raw) then ([], inr 413)
    else
      let text := bodyParser_decode raw in
      if strict_json text then
        match JSON_parse text with
        | Some v => ([JsonParsed text], inl (parsed_body v))
        | None => ([JsonParsed text], inr 400)
        end
      else ([], inr 400)
  else ([], inl no_body).

(** How a request to the route ends: the middleware refuses it with a
    status, or the handler runs and answers or throws. *)
Inductive route_outcome :=
| Refused (status : Z)
| Handled (result : response + error).

Definition webhook_route (json_content_type supported : bool) (raw : Buffer)
    (signature webhookSecret : option jsstring)
  : list event * route_outcome :=
  match bodyParser_json_then_raw json_content_type supported raw with
  | (events, inr status) => (events, Refused status)
  | (events, inl body) =>
      let '(events', result) := webhook signature webhookSecret body in
      (events ++ events', Handled result)
  end.

End Webhook.

Arguments raw_body {json_value} data.
Arguments parsed_body {json_value} v.
Arguments no_body {json_value}.

(** The error kinds of the webhook path, read off the response. *)
Inductive SignatureError :=
| MissingSignature
| InvalidSignature
| MalformedPayload.

Definition webhook_error_kind (r : response) : option SignatureError :=
  match r with
  | send 400 "Missing signature header" => Some MissingSignature
  | send 401 "Invalid signature" => Some InvalidSignature
  | send 400 "Invalid JSON" => Some MalformedPayload
  | _ => None
  end.

(** The signature the handler computes for a secret and a body. *)
Definition expected_signature (secret : jsstring) (body : Buffer) : jsstring :=
  hex (SHA256.hmac (utf8_encode secret) body).

(** The handler fails with kind [k]. *)
Definition webhook_fails_with (out : M response) (k : SignatureError) : Prop :=
  exists r, snd out = inl r /\ webhook_error_kind r = Some k.

(** A small runtime for closed examples: a body of ASCII bytes decodes to the
    same code units, and of all JSON texts only the three literal names are
    recognised, which is what [JSON.parse] does on the bodies used below. *)
Definition toString_ascii (b : Buffer) : jsstring :=
  map (fun x => if x <? 128 then x else 0xFFFD) b.

Definition parse_literal (text : jsstring) : option jsstring :=
  if string_strict_eq text (str "null") || string_strict_eq text (str "true")
     || string_strict_eq text (str "false")
  then Some text else None.

(** For the route: of all JSON texts, the empty object and the empty array
    are recognised. *)
Definition parse_empty (text : jsstring) : option jsstring :=
  if string_strict_eq text (str "{}") || string_strict_eq text (str "[]")
  then Some text else None.

(** The lengths that the table gives to the brand named [b]. *)
Definition brand_lengths (b : string) : list Z :=
  flat_map (fun t => if String.eqb (CreditCardType.type t) b
                     then CreditCardType.lengths t else [])
           CreditCardType.cardTypes.

(** Every length of the table lies between 12 and 19. *)
Definition table_length_range : bool :=
  forallb (fun t => forallb (fun l => (12 <=? l) && (l <=? 19))
                            (CreditCardType.lengths t))
          CreditCardType.cardTypes.

(** ** JSON values, as the handlers read them from [req.body] *)

(** The values of [JSON.parse], and [undefined] for what is absent.  An
    object lists each of its keys once, as [JSON.parse] leaves it. *)
#[local] Set Warnings "-register-all".

Inductive value :=
| VUndefined
| VNull
| VBool (b : bool)
| VNumber (x : float)
| VString (s : jsstring)
| VArray (items : list value)
| VObject (fields : list (jsstring * value)).

#[local] Set Warnings "+register-all".

(** [ToBoolean]: [undefined], [null], [false], zero, NaN and the empty string
    are falsy, every other value is truthy. *)
Definition truthy (v : value) : bool :=
  match v with
  | VUndefined | VNull => false
  | VBool b => b
  | VNumber x => negb (PrimFloat.eqb x 0%float || negb (PrimFloat.eqb x x))
  | VString [] => false
  | VString _ => true
  | VArray _ | VObject _ => true
  end.

(** [a || b]. *)
Definition or_else (a b : value) : value := if truthy a then a else b.

Definition nullish (v : value) : bool :=
  match v with
  | VUndefined | VNull => true
  | _ => false
  end.

Fixpoint lookup (k : jsstring) (fields : list (jsstring * value)) : value :=
  match fields with
  | [] => VUndefined
  | (k', v) :: rest => if string_strict_eq k k' then v else lookup k rest
  end.

(** [v.k] on a value that is not null or undefined, for the property names
    the handlers read; none of them is inherited, an index or [length], so
    only an object can have it. *)
Definition field (v : value) (k : string) : value :=
  match v with
  | VObject fields => lookup (str k) fields
  | _ => VUndefined
  end.

(** [v?.k]. *)
Definition optional_field (v : value) (k : string) : value :=
  if nullish v then VUndefined else field v k.

(** An object literal and a string literal of the source. *)
Definition obj (fields : list (string * value)) : value :=
  VObject (map (fun kv => (str (fst kv), snd kv)) fields).

Definition text (s : string) : value := VString (str s).

(** [JSON.stringify(v)], as the value that the text written denotes: a
    number that is not finite is written as [null], a zero as [0]; an
    [undefined] field of an object is left out, an [undefined] item of an
    array is written as [null]; for [undefined] itself nothing is written. *)
Fixpoint json_sent (v : value) : value :=
  match v with
  | VNumber x =>
      if PrimFloat.is_finite x then
        if PrimFloat.eqb x 0%float then VNumber 0%float else VNumber x
      else VNull
  | VArray items =>
      VArray (map (fun item =>
                     match item with
                     | VUndefined => VNull
                     | _ => json_sent item
                     end) items)
  | VObject fields =>
      VObject (flat_map (fun kv =>
                           let '(k, w) := kv in
                           match w with
                           | VUndefined => []
                           | _ => [(k, json_sent w)]
                           end) fields)
  | _ => v
  end.

(** [ToString(v)] and [ToNumber(v)] throw a TypeError: the conversion of an
    object to a primitive calls its [toString] and [valueOf]; an object of
    [JSON.parse] inherits both, and [valueOf] returns the object itself, so
    the conversion fails exactly when an own property named toString (no
    JSON value is a function) hides the inherited method.  An array is
    converted by joining the strings of its items, of which [null] and
    [undefined] give the empty string. *)
Fixpoint to_string_throws (v : value) : bool :=
  match v with
  | VObject fields =>
      existsb (fun kv => string_strict_eq (fst kv) (str "toString")) fields
  | VArray items => existsb to_string_throws items
  | _ => false
  end.

(** What these handlers answer: [res.status(n).json(body)], with [body] the
    value that is given to [res.json]; what goes out is its
    [JSON.stringify]. *)
Inductive reply :=
| JsonReply (status : Z) (body : value).

Definition reply_status (r : reply) : Z :=
  match r with JsonReply status _ => status end.

Definition reply_body (r : reply) : value :=
  match r with JsonReply _ body => body end.

(** The body that is sent for a reply. *)
Definition sent_body (r : reply) : value := json_sent (reply_body r).

(** A response of the card validation, as a reply. *)
Definition reply_of_response (r : response) : reply :=
  match r with
  | json status fields =>
      JsonReply status (obj (map (fun kv => (fst kv, text (snd kv))) fields))
  | send status t => JsonReply status (text t)
  end.

(** What the two handlers do besides answering: lines on the console (the
    first argument of the call) and requests to the payment provider, with
    the body of a request as the value that its JSON text denotes. *)
Record fetch_request := {
  url : string;
  authorization : jsstring;
  referer : jsstring;
  request_body : value
}.

Inductive io :=
| Log (message : string)
| LogError (message : string)
| Fetch (request : fetch_request).

(** What [fetch] followed by [response.json()] gives: the promise of [fetch]
    is rejected, or there is a response with a status and a body that is
    JSON or not; [response.ok] is true for a status from 200 to 299. *)
Inductive fetch_result :=
| Rejected (message : string)
| Answered (status : Z) (body : option value).

Definition ok (status : Z) : bool := (200 <=? status) && (status <=? 299).

(** ** The handler of [POST /api/checkout] (server.js, lines 48-215) *)

Record environment := {
  NODE_ENV : option jsstring;
  PEACH_PAYMENTS_API_KEY : option jsstring
}.

(** [process.env.NODE_ENV !== 'production']. *)
Definition not_production (env : environment) : bool :=
  match NODE_ENV env with
  | Some v => negb (string_strict_eq v (str "production"))
  | None => true
  end.

Definition peachEndpoint (env : environment) : string :=
  if not_production env
  then "https://testsecure.peachpayments.com/v2/checkout"
  else "https://secure.peachpayments.com/v2/checkout".

Definition failingCardNumbers : list string :=
  ["4012001037461114"; "4012001037141112"; "4532497088771651"].
Definition declinedCardNumbers : list string :=
  ["4000000000000002"; "5555555555554444"].
Definition expiredCardNumbers : list string :=
  ["4000000000000069"; "5105105105105100"].
Definition insufficientFundsCards : list string :=
  ["4000000000009995"; "5555555555554477"].

(** [list.includes(s)]. *)
Definition includes (l : list string) (s : jsstring) : bool :=
  existsb (fun x => string_strict_eq (str x) s) l.

(** Lines 60-65: one of the required fields is missing or falsy. *)
Definition required_field_missing (payload : value) : bool :=
  negb (truthy (optional_field (field payload "authentication") "entityId"))
  || negb (truthy (field payload "merchantTransactionId"))
  || negb (truthy (field payload "amount"))
  || negb (truthy (field payload "currency"))
  || negb (truthy (field payload "nonce"))
  || negb (truthy (field payload "shopperResultUrl")).

(** [payload.card && payload.card.number], when it is truthy. *)
Definition card_number (payload : value) : option value :=
  let card := field payload "card" in
  if truthy card then
    let number := field card "number" in
    if truthy number then Some number else None
  else None.

Section CheckoutHandler.

Variable valid_number : jsstring -> CardValidator.verification.

(** [Date.now()] when the answer is built, the provider behind [fetch], and
    the two conversions of a value that is not a number already, where they
    do not throw: [parseFloat(v)] and the [ToNumber(v)] of [v * 100]. *)
Variable now : Z.
Variable upstream : fetch_request -> fetch_result.
Variable parseFloat_other : value -> float.
Variable ToNumber_other : value -> float.

(** [parseFloat(v)]: a number is written out and read back, which gives the
    same number as far as [===] can tell; another value is converted to a
    string first, which may throw. *)
Definition parseFloat (v : value) : float + string :=
  match v with
  | VNumber x => inl x
  | _ =>
      if to_string_throws v
      then inr "Cannot convert object to primitive value"
      else inl (parseFloat_other v)
  end.

(** [v * 100]. *)
Definition times_100 (v : value) : value + string :=
  match v with
  | VNumber x => inl (VNumber (PrimFloat.mul x 100%float))
  | _ =>
      if to_string_throws v
      then inr "Cannot convert object to primitive value"
      else inl (VNumber (PrimFloat.mul (ToNumber_other v) 100%float))
  end.

(** Lines 72-110: the card validation, on [payload.card.number].  A truthy
    number that is not a string has no [replace] method. *)
Definition card_stage (payload : value) : completion :=
  match card_number payload with
  | Some (VString number) => validateCard valid_number number
  | Some _ =>
      Throws (TypeError "payload.card.number.replace is not a function")
  | None => Continues
  end.

(** Lines 119-149: the answer simulated for a listed test card. *)
Definition simulated_card (cleanCardNumber : jsstring) : option reply :=
  if includes failingCardNumbers cleanCardNumber then
    Some (JsonReply 400
            (obj [("error", text "Simulated payment failure");
                  ("details", text "This test card is designed to simulate a generic error response");
                  ("code", text "ERROR")]))
  else if includes declinedCardNumbers cleanCardNumber then
    Some (JsonReply 400
            (obj [("error", text "Payment declined");
                  ("details", text "This test card is designed to simulate a declined payment");
                  ("code", text "DECLINED")]))
  else if includes expiredCardNumbers cleanCardNumber then
    Some (JsonReply 400
            (obj [("error", text "Card expired");
                  ("details", text "This test card is designed to simulate an expired card");
                  ("code", text "EXPIRED")]))
  else if includes insufficientFundsCards cleanCardNumber then
    Some (JsonReply 400
            (obj [("error", text "Insufficient funds");
                  ("details", text "This test card is designed to simulate insufficient funds");
                  ("code", text "INSUFFICIENT_FUNDS")]))
  else None.

Definition checkoutId (prefix : string) : value :=
  VString (str prefix ++ CreditCardType.String_of now).

#[local] Set Warnings "-inexact-float".

(** Lines 151-182: the answer simulated for the amount; the two
    conversions of the amount may throw. *)
Definition simulated_amount (payload : value) : reply + string :=
  let amount := field payload "amount" in
  let answer (prefix status message : string) : reply + string :=
    match times_100 amount with
    | inl amount100 =>
        inl (JsonReply 200
               (obj [("checkoutId", checkoutId prefix);
                     ("amount", amount100);
                     ("status", text status);
                     ("message", text message)]))
    | inr thrown => inr thrown
    end in
  let success :=
    answer "mock-checkout-" "SUCCESS" "Test payment processed successfully" in
  if truthy amount then
    match parseFloat amount with
    | inr thrown => inr thrown
    | inl x =>
        if PrimFloat.eqb x 92%float then
          answer "test-success-" "SUCCESS"
                 "Test payment processed successfully"
        else if PrimFloat.eqb x 15.99%float then
          answer "test-pending-" "PENDING" "Payment is being processed"
        else if PrimFloat.eqb x 0.01%float then
          inl (JsonReply 400
                 (obj [("error", text "Amount too small");
                       ("details", text "The payment amount is below the minimum threshold");
                       ("code", text "INVALID_AMOUNT")]))
        else success
    end
  else success.

#[local] Set Warnings "+inexact-float".

(** Lines 113-183: the simulation of a non-production environment. *)
Definition simulation (payload : value) : reply + string :=
  match card_number payload with
  | Some (VString number) =>
      match simulated_card (strip_whitespace number) with
      | Some r => inl r
      | None => simulated_amount payload
      end
  | Some _ => inr "payload.card.number.replace is not a function"
  | None => simulated_amount payload
  end.

(** Lines 186-196: the request sent to the provider; its body is
    [JSON.stringify(payload)]. *)
Definition provider_request (env : environment) (referer_header : option jsstring)
    (payload : value) : fetch_request :=
  {| url := peachEndpoint env;
     authorization :=
       str "Bearer "
       ++ match PEACH_PAYMENTS_API_KEY env with
          | Some key => key
          | None => str "undefined"
          end;
     referer :=
       match referer_header with
       | Some (c :: r) => c :: r
       | _ => str "https://yourdomain.com"
       end;
     request_body := json_sent payload |}.

(** Lines 186-207: the request to the provider and the answer made from
    its response. *)
Definition forward (env : environment) (referer_header : option jsstring)
    (payload : value) : list io * (reply + string) :=
  let request := provider_request env referer_header payload in
  match upstream request with
  | Rejected message => ([Fetch request], inr message)
  | Answered status None =>
      ([Fetch request], inr "invalid json response body")
  | Answered status (Some responseData) =>
      ([Fetch request; Log "Peach Payments response:"],
       if negb (ok status) then
         if nullish responseData then
           inr "Cannot read properties of null (reading 'message')"
         else
           inl (JsonReply status
                  (obj [("error",
                         or_else (field responseData "message")
                                 (text "Error from payment provider"));
                        ("details", responseData)]))
       else inl (JsonReply 200 responseData))
  end.

Definition error_message (e : error) : string :=
  match e with
  | TypeError m | SyntaxError m => m
  end.

(** The body of the [try]: the events, and the answer or the message of
    what was thrown. *)
Definition checkout_try (env : environment) (referer_header : option jsstring)
    (payload : value) : list io * (reply + string) :=
  if nullish payload then
    ([Log "Checkout payload:"],
     inr "Cannot read properties of undefined (reading 'authentication')")
  else if required_field_missing payload then
    ([Log "Checkout payload:"],
     inl (JsonReply 400
            (obj [("error", text "Missing required fields");
                  ("details", text "Please provide all required fields for Peach Payments")])))
  else
    match card_stage payload with
    | Responds r => ([Log "Checkout payload:"], inl (reply_of_response r))
    | Throws e => ([Log "Checkout payload:"], inr (error_message e))
    | Continues =>
        if not_production env then
          ([Log "Checkout payload:"], simulation payload)
        else
          let '(events, result) := forward env referer_header payload in
          (Log "Checkout payload:" :: events, result)
    end.

(** The handler: what the [try] throws is logged and answered with 500. *)
Definition checkout (env : environment) (referer_header : option jsstring)
    (payload : value) : list io * reply :=
  match checkout_try env referer_header payload with
  | (events, inl r) => (events, r)
  | (events, inr message) =>
      (events ++ [LogError "Checkout error:"],
       JsonReply 500 (obj [("error", text "Internal server error");
                           ("message", text message)]))
  end.

End CheckoutHandler.

(** ** The handler of [POST /api/verify-payment] (server.js, lines 263-303) *)

(** [params.simulateStatus === s], one case of the [switch]. *)
Definition is_status (simulateStatus : value) (s : string) : bool :=
  match simulateStatus with
  | VString x => string_strict_eq x (str s)
  | _ => false
  end.

Definition verify_payment_reply (params : value) : reply :=
  let id := field params "id" in
  let amount := field params "amount" in
  let simulateStatus := field params "simulateStatus" in
  let success :=
    JsonReply 200
      (obj [("success", VBool true);
            ("message", text "Payment verified successfully");
            ("transactionId", or_else id (text "mock-transaction-id"));
            ("status", text "SUCCESS");
            ("amount", or_else amount (VNumber 9200%float))]) in
  if truthy simulateStatus then
    if is_status simulateStatus "failed" then
      JsonReply 200
        (obj [("success", VBool false);
              ("message", text "Payment verification failed");
              ("transactionId", or_else id (text "mock-failed-transaction"));
              ("status", text "FAILED")])
    else if is_status simulateStatus "pending" then
      JsonReply 200
        (obj [("success", VBool true);
              ("message", text "Payment is still processing");
              ("transactionId", or_else id (text "mock-pending-transaction"));
              ("status", text "PENDING");
              ("amount", or_else amount (VNumber 9200%float))])
    else if is_status simulateStatus "refunded" then
      JsonReply 200
        (obj [("success", VBool true);
              ("message", text "Payment was refunded");
              ("transactionId", or_else id (text "mock-refunded-transaction"));
              ("status", text "REFUNDED");
              ("amount", or_else amount (VNumber 9200%float))])
    else success
  else success.

(** The handler has no [try]: reading a property of a body that is null or
    undefined throws. *)
Definition verify_payment (params : value) : list io * (reply + error) :=
  ([Log "Verifying payment with params:"],
   if nullish params then
     inr (TypeError "Cannot read properties of undefined (reading 'simulateStatus')")
   else inl (verify_payment_reply params)).

(** For closed examples: a payload with every required field and the given
    card, a production and a test environment, and a provider that answers
    every request with status 201 and a small JSON body. *)
Definition example_payload (card : value) : value :=
  obj [("authentication", obj [("entityId", text "8ac7a4c9")]);
       ("merchantTransactionId", text "order-17");
       ("amount", VNumber 92%float);
       ("currency", text "ZAR");
       ("nonce", text "n-1");
       ("shopperResultUrl", text "https://shop.example/result");
       ("card", card)].

Definition example_production : environment :=
  {| NODE_ENV := Some (str "production");
     PEACH_PAYMENTS_API_KEY := Some (str "secret-key") |}.

Definition example_test : environment :=
  {| NODE_ENV := None; PEACH_PAYMENTS_API_KEY := None |}.

Definition example_provider (request : fetch_request) : fetch_result :=
  Answered 201 (Some (obj [("id", text "checkout-1")])).

Definition example_checkout (env : environment) (card : value)
  : list io * reply :=
  checkout CardValidator.number 1700000000000 example_provider
    (fun _ => 0%float) (fun _ => 0%float) env None (example_payload card).

(** * Properties *)

(** ** Known answers *)

Example sha256_constants :
  firstn 4 SHA256.K = [0x428a2f98; 0x71374491; 0xb5c0fbcf; 0xe9b5dba5]
  /\ List.length SHA256.K = 64%nat
  /\ nth 63 SHA256.K 0 = 0xc67178f2
  /\ firstn 2 SHA256.initial_hash = [0x6a09e667; 0xbb67ae85].
Proof. repeat split. Qed.

Example sha256_abc :
  hex (SHA256.sha256 (str "abc"))
  = str "ba7816bf8f01cfea414140de5dae2223b00361a396177a9cb410ff61f20015ad".
Proof. vm_compute. reflexivity. Qed.

Example sha256_two_blocks :
  hex (SHA256.sha256
         (str "abcdbcdecdefdefgefghfghighijhijkijkljklmklmnlmnomnopnopq"))
  = str "248d6a61d20638b8e5c026930c3e6039a33ce45964ff2167f6ecedd419db06c1".
Proof. vm_compute. reflexivity. Qed.

(** RFC 4231, test case 2. *)
Example hmac_sha256_rfc4231_2 :
  expected_signature (str "Jefe") (str "what do ya want for nothing?")
  = str "5bdcc146bf60754e6a042426089575c75a003f089d2739839dec58b964ec3843".
Proof. vm_compute. reflexivity. Qed.

(** RFC 4231, test case 6: a key longer than a block is hashed first. *)
Example hmac_sha256_rfc4231_6 :
  hex (SHA256.hmac (repeat 0xaa 131)
         (str "Test Using Larger Than Block-Size Key - Hash Key First"))
  = str "60e431591ee0b67f0d8a26aacbf5b77f8e0bc6213728c5140546040f0ee37f54".
Proof. vm_compute. reflexivity. Qed.

Example utf8_encode_samples :
  utf8_encode [0xe9; 0x20ac; 0xD83D; 0xDE00; 0xD800]
  = [0xC3; 0xA9; 0xE2; 0x82; 0xAC; 0xF0; 0x9F; 0x98; 0x80; 0xEF; 0xBF; 0xBD].
Proof. reflexivity. Qed.

Example luhnCheck_visa_test_number :
  luhnCheck (str "4242 4242 4242 4242") = true.
Proof. reflexivity. Qed.

Example validateCard_visa_test_number :
  validateCard CardValidator.number (str "4242 4242 4242 4242") = Continues.
Proof. vm_compute. reflexivity. Qed.

(** A UnionPay number is valid for card-validator without the Luhn relation;
    the handler's own [luhnCheck] then rejects it. *)
Example validateCard_unionpay_luhn :
  validateCard CardValidator.number (str "6200000000000000")
  = Responds (json 400 [("error", "Invalid card number");
                        ("details", "The card number failed the Luhn algorithm check")]).
Proof. vm_compute. reflexivity. Qed.

(** With hyphens as separators the number is valid for card-validator and the
    handler counts the hyphens in the length. *)
Example validateCard_hyphens :
  validateCard CardValidator.number (str "4242-4242-4242-4242")
  = Responds (json 400 [("error", "Invalid card length");
                        ("details", "visa cards must be 16 digits")]).
Proof. vm_compute. reflexivity. Qed.

(** ** Characters and [parseInt] *)

Lemma space_not_digit (c : Z) : is_space c = true -> is_digit c = false.
Proof.
  unfold is_space, is_digit. intros H.
  apply andb_false_iff.
  destruct (Z.leb_spec 48 c), (Z.leb_spec c 57); auto.
  exfalso.
  repeat (apply orb_true_iff in H; destruct H as [H | H]);
    repeat (apply andb_true_iff in H; destruct H as [H ?]); lia.
Qed.

Lemma digit_not_space (c : Z) : is_digit c = true -> is_space c = false.
Proof.
  intros H. destruct (is_space c) eqn:E; auto.
  apply space_not_digit in E. congruence.
Qed.

(** [parseInt(ch, 10)] of a single character is its digit, or NaN. *)
Lemma parseInt10_char (c : Z) :
  parseInt10 [c] = if is_digit c then Num (c - 48) else NaN.
Proof.
  unfold parseInt10. simpl.
  destruct (is_space c) eqn:Es.
  - rewrite (space_not_digit _ Es). reflexivity.
  - destruct (Z.eqb_spec c 45) as [-> | _]; [reflexivity |].
    destruct (Z.eqb_spec c 43) as [-> | _]; [reflexivity |].
    simpl. destruct (is_digit c); reflexivity.
Qed.

Lemma string_strict_eq_spec (a b : jsstring) :
  string_strict_eq a b = true <-> a = b.
Proof.
  revert b. induction a as [| x a IH]; intros [| y b]; simpl;
    try (split; [discriminate | discriminate]); try tauto.
  rewrite andb_true_iff, IH, Z.eqb_eq.
  split; [intros [-> ->]; reflexivity | intros [= -> ->]; auto].
Qed.

Lemma forallb_rev {A} (f : A -> bool) (l : list A) :
  forallb f (rev l) = forallb f l.
Proof.
  induction l as [| a l IH]; simpl; auto.
  rewrite forallb_app, IH. simpl. rewrite andb_true_r. apply andb_comm.
Qed.

Lemma strip_whitespace_digits (s : jsstring) :
  all_digits s = true -> strip_whitespace s = s.
Proof.
  unfold all_digits, strip_whitespace.
  induction s as [| c s IH]; simpl; auto.
  intros H. apply andb_true_iff in H as [Hc Hs].
  rewrite (digit_not_space _ Hc). simpl. f_equal. auto.
Qed.

Lemma strip_whitespace_idem (s : jsstring) :
  strip_whitespace (strip_whitespace s) = strip_whitespace s.
Proof.
  unfold strip_whitespace.
  induction s as [| c s IH]; simpl; auto.
  destruct (is_space c) eqn:E; simpl; auto.
  rewrite E. simpl. f_equal. auto.
Qed.

Lemma filter_all {A} (f : A -> bool) (l : list A) :
  forallb f l = true -> filter f l = l.
Proof.
  induction l as [| a l IH]; simpl; auto.
  intros H. apply andb_true_iff in H as [-> Hl]. f_equal. auto.
Qed.

(** ** The loop of [luhnCheck] *)

(** On a digit the loop body adds the weighted digit. *)
Lemma luhn_step_digit (acc : Z) (b : bool) (c : Z) :
  is_digit c = true ->
  luhn_step (Num acc, b) c = (Num (acc + luhn_weight b (c - 48)), negb b).
Proof.
  intros Hc. unfold luhn_step. rewrite parseInt10_char, Hc.
  destruct b; unfold luhn_weight, num_mul, num_gt, num_sub, num_add, negb;
    [| reflexivity].
  replace ((c - 48) * 2) with (2 * (c - 48)) by lia.
  destruct (9 <? 2 * (c - 48)); reflexivity.
Qed.

(** On any other character, and once the sum is NaN, the sum is NaN. *)
Lemma luhn_step_not_digit (sum : number) (b : bool) (c : Z) :
  is_digit c = false -> luhn_step (sum, b) c = (NaN, negb b).
Proof.
  intros Hc. unfold luhn_step. rewrite parseInt10_char, Hc.
  destruct b, sum; reflexivity.
Qed.

Lemma luhn_step_NaN (b : bool) (c : Z) :
  luhn_step (NaN, b) c = (NaN, negb b).
Proof.
  unfold luhn_step. destruct (parseInt10 [c]), b; reflexivity.
Qed.

Lemma luhn_fold_NaN (l : jsstring) (b : bool) :
  fst (fold_left luhn_step l (NaN, b)) = NaN.
Proof.
  revert b. induction l as [| c l IH]; intros b; [reflexivity |].
  cbn [fold_left]. rewrite luhn_step_NaN. apply IH.
Qed.

Lemma luhn_fold_digits (l : jsstring) (acc : Z) (b : bool) :
  forallb is_digit l = true ->
  fst (fold_left luhn_step l (Num acc, b))
  = Num (acc + weighted_sum_from_right (map (fun c => c - 48) l) b).
Proof.
  revert acc b. induction l as [| c l IH]; intros acc b H.
  - simpl. f_equal. lia.
  - simpl in H. apply andb_true_iff in H as [Hc Hl].
    cbn [fold_left map weighted_sum_from_right].
    rewrite (luhn_step_digit _ _ _ Hc), (IH _ _ Hl). f_equal. lia.
Qed.

Lemma luhn_fold_not_digits (l : jsstring) (sum : number) (b : bool) :
  forallb is_digit l = false ->
  fst (fold_left luhn_step l (sum, b)) = NaN.
Proof.
  revert sum b. induction l as [| c l IH]; intros sum b H.
  - discriminate.
  - cbn [fold_left]. cbn [forallb] in H.
    destruct (is_digit c) eqn:Hc; simpl in H.
    + destruct (luhn_step (sum, b) c) as [sum' b'] eqn:E. apply IH, H.
    + rewrite (luhn_step_not_digit _ _ _ Hc). apply luhn_fold_NaN.
Qed.

Lemma luhnCheck_unfold (s : jsstring) :
  luhnCheck s
  = num_strict_eq (num_rem (fst (luhn_loop (strip_whitespace s))) (Num 10))
                  (Num 0).
Proof.
  unfold luhnCheck. destruct (luhn_loop (strip_whitespace s)). reflexivity.
Qed.

Lemma rem_mod_zero (x : Z) : (Z.rem x 10 =? 0) = (x mod 10 =? 0).
Proof.
  destruct (Z.eqb_spec (Z.rem x 10) 0) as [H | H],
           (Z.eqb_spec (x mod 10) 0) as [H' | H']; auto; exfalso.
  - apply H'. apply Z.rem_divide in H; [| lia].
    apply Z.mod_divide; [lia | exact H].
  - apply H. apply Z.mod_divide in H'; [| lia].
    apply Z.rem_divide; [lia | exact H'].
Qed.

(** What [luhnCheck] computes, on every string. *)
Lemma luhnCheck_eq (s : jsstring) :
  luhnCheck s = all_digits (strip_whitespace s) && luhn_valid s.
Proof.
  rewrite luhnCheck_unfold. unfold luhn_loop, luhn_valid, weighted_digit_sum.
  destruct (all_digits (strip_whitespace s)) eqn:D; unfold all_digits in D.
  - rewrite luhn_fold_digits by (rewrite forallb_rev; exact D).
    unfold digit_values. rewrite (filter_all _ _ D), map_rev.
    simpl. apply rem_mod_zero.
  - rewrite luhn_fold_not_digits by (rewrite forallb_rev; exact D).
    reflexivity.
Qed.

(** C1, as stated, fails: on the string "a" the digit sum is 0, which is
    divisible by 10, and [luhnCheck] returns false. *)
Lemma luhnCheck_iff_digit_sum_counterexample :
  ~ (luhnCheck (str "a") = true <-> weighted_digit_sum (str "a") mod 10 = 0).
Proof.
  intros [_ H]. specialize (H eq_refl). discriminate H.
Qed.

(** C1, amended: for a string whose whitespace-stripped form consists of
    decimal digits only, [luhnCheck] returns true if and only if the weighted
    digit sum (every second digit from the right doubled, 9 subtracted from a
    doubled digit above 9) is divisible by 10; for a string whose stripped
    form has any other character, [luhnCheck] returns false. *)
Theorem luhnCheck_digit_sum (s : jsstring) :
  (all_digits (strip_whitespace s) = true ->
   (luhnCheck s = true <-> weighted_digit_sum s mod 10 = 0))
  /\ (all_digits (strip_whitespace s) = false -> luhnCheck s = false).
Proof.
  rewrite luhnCheck_eq. unfold luhn_valid. split; intros ->; simpl.
  - apply Z.eqb_eq.
  - reflexivity.
Qed.

Lemma luhnCheck_digit_sum_witness :
  (luhnCheck (str "4242 4242 4242 4242") = true
   <-> weighted_digit_sum (str "4242 4242 4242 4242") mod 10 = 0)
  /\ luhnCheck (str "4242 4242 4242 424x") = false.
Proof.
  split.
  - apply (proj1 (luhnCheck_digit_sum (str "4242 4242 4242 4242"))).
    reflexivity.
  - apply (proj2 (luhnCheck_digit_sum (str "4242 4242 4242 424x"))).
    reflexivity.
Defined.

Lemma strip_whitespace_all_space (s : jsstring) :
  forallb is_space s = true -> strip_whitespace s = [].
Proof.
  unfold strip_whitespace. induction s as [| c s IH]; simpl; auto.
  intros H. apply andb_true_iff in H as [-> Hs]. simpl. auto.
Qed.

Lemma no_digit_strip_not_digits (s : jsstring) :
  existsb is_digit s = false -> forallb is_space s = false ->
  all_digits (strip_whitespace s) = false.
Proof.
  unfold all_digits, strip_whitespace.
  induction s as [| c s IH]; simpl; intros Hd Hs.
  - discriminate.
  - apply orb_false_iff in Hd as [Hc Hd].
    destruct (is_space c) eqn:E; simpl in *.
    + auto.
    + rewrite Hc. reflexivity.
Qed.

(** C10, as stated, fails: "a" has no digit character and [luhnCheck]
    returns false on it. *)
Lemma luhnCheck_no_digit_counterexample :
  ~ (forall s : jsstring, existsb is_digit s = false -> luhnCheck s = true).
Proof.
  intros H. specialize (H (str "a") eq_refl). discriminate H.
Qed.

(** C10, amended: for every string that consists of whitespace only (the
    empty string included) [luhnCheck] returns true, the digit sum over the
    stripped, empty string being 0; a string with no digit but with some
    character that is not whitespace makes [luhnCheck] return false. *)
Theorem luhnCheck_no_digit (s : jsstring) :
  (forallb is_space s = true ->
   luhnCheck s = true /\ weighted_digit_sum s = 0)
  /\ (existsb is_digit s = false -> forallb is_space s = false ->
      luhnCheck s = false).
Proof.
  split.
  - intros H. unfold luhnCheck, weighted_digit_sum.
    rewrite (strip_whitespace_all_space _ H). split; reflexivity.
  - intros Hd Hs. rewrite luhnCheck_eq.
    rewrite (no_digit_strip_not_digits _ Hd Hs). reflexivity.
Qed.

Lemma luhnCheck_no_digit_witness :
  (luhnCheck (str "   ") = true /\ weighted_digit_sum (str "   ") = 0)
  /\ luhnCheck (str " a-b ") = false.
Proof.
  split.
  - apply (proj1 (luhnCheck_no_digit (str "   "))). reflexivity.
  - apply (proj2 (luhnCheck_no_digit (str " a-b "))); reflexivity.
Defined.

(** ** The brand lookup and [valid.number] *)

Section Lookup.
Import CreditCardType.

Variable types : list CardType.
Variable cardNumber : jsstring.

(** A property of every result that holds of each brand's own match is kept
    by the loop over the brands. *)
Lemma results_invariant (Q : result -> Prop) (ts : list CardType)
    (acc : list result) :
  (forall r, In r acc -> Q r) ->
  (forall t m, In t ts -> firstMatch cardNumber (patterns t) = Some m ->
               Q (t, m)) ->
  forall r,
    In r (fold_left (fun results cardConfiguration =>
                       addMatchingCardsToResults cardNumber cardConfiguration
                                                 results) ts acc) ->
    Q r.
Proof.
  revert acc. induction ts as [| t ts IH]; intros acc Hacc Hts r; simpl.
  - apply Hacc.
  - apply IH.
    + unfold addMatchingCardsToResults.
      destruct (firstMatch cardNumber (patterns t)) as [m |] eqn:E; auto.
      intros r' Hr'. apply in_app_or in Hr' as [Hr' | [<- | []]]; auto.
      apply Hts; simpl; auto.
    + intros t' m Ht'. apply Hts. simpl. auto.
Qed.

Lemma firstMatch_strength (ps : list pattern) (m : option nat) :
  (forall p, In p ps -> (patternLength p <= List.length cardNumber)%nat) ->
  firstMatch cardNumber ps = Some m -> m <> None.
Proof.
  induction ps as [| p ps IH]; simpl; intros Hps H.
  - discriminate.
  - destruct (matches cardNumber p).
    + assert (Hp : (patternLength p <= List.length cardNumber)%nat)
        by (apply Hps; auto).
      apply Nat.leb_le in Hp. rewrite Hp in H.
      injection H as <-. discriminate.
    + apply IH; auto.
Qed.

Lemma best_of_in (rs : list result) (r : result) :
  In (fold_left (fun bestMatch result =>
                   if (strength bestMatch <? strength result)%nat
                   then result else bestMatch) rs r) (r :: rs).
Proof.
  revert r. induction rs as [| r' rs IH]; intros r; simpl.
  - auto.
  - specialize (IH (if (strength r <? strength r')%nat then r' else r)).
    destruct (strength r <? strength r')%nat; simpl in IH; tauto.
Qed.

Lemma findBestMatch_in (results : list result) (best : result) :
  findBestMatch results = Some best -> In best results.
Proof.
  unfold findBestMatch.
  destruct (hasEnoughResultsToDetermineBestMatch results); [| discriminate].
  destruct results as [| r rs]; [discriminate |].
  intros [= <-]. apply best_of_in.
Qed.

Lemma findBestMatch_all_strong (results : list result) :
  results <> [] -> (forall r, In r results -> snd r <> None) ->
  findBestMatch results <> None.
Proof.
  intros Hne Hall. unfold findBestMatch. unfold result in *.
  assert (F : filter (fun r : CardType * option nat =>
                        match snd r with Some _ => true | None => false end)
                     results = results).
  { apply filter_all. apply forallb_forall. intros r Hr.
    specialize (Hall r Hr). destruct (snd r); congruence. }
  unfold hasEnoughResultsToDetermineBestMatch. cbv zeta. rewrite F, Nat.eqb_refl.
  destruct results as [| r rs]; [congruence |]. simpl. discriminate.
Qed.

(** A brand returned alone by the lookup of a non-empty number is a brand of
    the table. *)
Lemma creditCardType_single_in (c : CardType) :
  creditCardType types cardNumber = [c] -> In c types.
Proof.
  unfold creditCardType. destruct cardNumber as [| d ds] eqn:E.
  - intros ->. simpl. auto.
  - rewrite <- E.
    set (results := fold_left _ types []).
    assert (Hin : forall r, In r results -> In (fst r) types).
    { apply results_invariant; [intros r [] | intros t m Ht _; exact Ht]. }
    destruct (findBestMatch results) as [best |] eqn:B.
    + intros [= <-]. apply Hin, findBestMatch_in, B.
    + intros H. destruct results as [| r [| r' rs]]; try discriminate.
      injection H as <-. apply Hin. simpl. auto.
Qed.

(** When the number is at least as long as every pattern of the table, the
    lookup returns no brand or exactly one. *)
Lemma creditCardType_long :
  (forall t p, In t types -> In p (patterns t) ->
               (patternLength p <= List.length cardNumber)%nat) ->
  cardNumber <> [] ->
  creditCardType types cardNumber = []
  \/ exists c, creditCardType types cardNumber = [c].
Proof.
  intros Hlen Hne. unfold creditCardType.
  destruct cardNumber as [| d ds] eqn:E; [congruence |]. rewrite <- E in *.
  set (results := fold_left _ types []).
  assert (Hs : forall r, In r results -> snd r <> None).
  { apply results_invariant; [intros r [] |].
    intros t m Ht Hm. simpl. eapply firstMatch_strength; [| exact Hm].
    intros p Hp. eapply Hlen; eauto. }
  destruct results as [| r rs] eqn:R.
  - left. reflexivity.
  - right. destruct (findBestMatch (r :: rs)) as [best |] eqn:B.
    + eauto.
    + exfalso. revert B. apply findBestMatch_all_strong; [discriminate | exact Hs].
Qed.

End Lookup.

Section Number.
Import CreditCardType CardValidator.

Lemma strip_hyphens_whitespace_digits (s : jsstring) :
  all_digits s = true -> strip_hyphens_whitespace s = s.
Proof.
  unfold all_digits, strip_hyphens_whitespace.
  induction s as [| c s IH]; simpl; auto.
  intros H. apply andb_true_iff in H as [Hc Hs].
  rewrite (digit_not_space _ Hc).
  assert ((c =? hyphen) = false) as ->.
  { unfold is_digit, hyphen in *. apply andb_true_iff in Hc. lia. }
  simpl. f_equal. auto.
Qed.

(** A number that [valid.number] declares valid has a brand. *)
Lemma number_with_valid_has_card (types : list CardType) (value : jsstring) :
  isValid (number_with types value) = true ->
  exists c, card (number_with types value) = Some c.
Proof.
  unfold number_with.
  destruct (negb (all_digits (strip_hyphens_whitespace value)));
    [discriminate |].
  destruct (creditCardType types (strip_hyphens_whitespace value))
    as [| c [| c' l]]; try discriminate.
  destruct (existsb _ (lengths c)); simpl; eauto.
Qed.

(** A valid number has one of the lengths of its brand, which is a brand of
    the table. *)
Lemma number_with_valid_length (types : list CardType) (value : jsstring)
    (c : CardType) :
  isValid (number_with types value) = true ->
  card (number_with types value) = Some c ->
  In c types
  /\ In (Z.of_nat (List.length (strip_hyphens_whitespace value))) (lengths c).
Proof.
  unfold number_with.
  destruct (negb (all_digits (strip_hyphens_whitespace value)));
    [discriminate |].
  destruct (creditCardType types (strip_hyphens_whitespace value))
    as [| c0 [| c' l]] eqn:T; try discriminate.
  destruct (existsb _ (lengths c0)) eqn:X; simpl; [| discriminate].
  intros _ [= <-]. split.
  - eapply creditCardType_single_in, T.
  - apply existsb_exists in X as (l & Hl & E).
    apply Z.eqb_eq in E. subst l. exact Hl.
Qed.

(** A string with a character that is no digit, hyphen or white space is
    not potentially valid. *)
Lemma number_with_not_digits (types : list CardType) (value : jsstring) :
  all_digits (strip_hyphens_whitespace value) = false ->
  isPotentiallyValid (number_with types value) = false.
Proof.
  unfold number_with. intros ->. reflexivity.
Qed.

Lemma maxOf_bound (ls : list Z) (b : Z) :
  -1 <= b -> (forall l, In l ls -> l <= b) -> maxOf ls <= b.
Proof.
  intros Hb. unfold maxOf. induction ls as [| l ls IH]; simpl; intros H.
  - exact Hb.
  - apply Z.max_lub; auto.
Qed.

(** A digit string longer than every length and every pattern of the table
    is not potentially valid. *)
Lemma number_with_too_long (types : list CardType) (value : jsstring)
    (bound : Z) :
  (forall t l, In t types -> In l (lengths t) -> l <= bound) ->
  (forall t p, In t types -> In p (patterns t) ->
               Z.of_nat (patternLength p) <= bound) ->
  all_digits value = true ->
  bound < Z.of_nat (List.length value) ->
  0 <= bound ->
  isPotentiallyValid (number_with types value) = false.
Proof.
  intros Hl Hp Hd Hlen Hb. unfold number_with.
  rewrite (strip_hyphens_whitespace_digits _ Hd), Hd. simpl.
  destruct (creditCardType_long types value) as [-> | [c E]].
  - intros t p Ht Hin. specialize (Hp t p Ht Hin). lia.
  - intros ->. simpl in Hlen. lia.
  - reflexivity.
  - rewrite E. pose proof (creditCardType_single_in _ _ _ E) as Hc.
    assert (M : maxOf (lengths c) <= bound)
      by (apply maxOf_bound; [lia | intros l; apply Hl, Hc]).
    assert (X : existsb (fun l => l =? Z.of_nat (List.length value))
                        (lengths c) = false).
    { destruct (existsb _ (lengths c)) eqn:X; auto.
      apply existsb_exists in X as (l & Hin & El). apply Z.eqb_eq in El.
      specialize (Hl c l Hc Hin). lia. }
    rewrite X. simpl. apply Z.ltb_ge. lia.
Qed.

Lemma table_checks_hold : table_checks = true.
Proof. vm_compute. reflexivity. Qed.

Lemma table_facts (t : CardType) :
  In t cardTypes ->
  (forall l, In l (lengths t) -> l <= 19)
  /\ (forall p, In p (patterns t) -> (patternLength p <= 8)%nat)
  /\ (type t = "american-express" -> forall l, In l (lengths t) -> l = 15).
Proof.
  intros Ht. pose proof table_checks_hold as H. unfold table_checks in H.
  rewrite forallb_forall in H. specialize (H t Ht).
  apply andb_true_iff in H as [H Ha]. apply andb_true_iff in H as [Hl Hp].
  rewrite forallb_forall in Hl, Hp. repeat split.
  - intros l Hin. apply Z.leb_le. auto.
  - intros p Hin. apply Nat.leb_le. auto.
  - intros E l Hin. rewrite E in Ha. simpl in Ha.
    rewrite forallb_forall in Ha. apply Z.eqb_eq. auto.
Qed.

Lemma number_too_long (value : jsstring) :
  all_digits value = true -> 19 < Z.of_nat (List.length value) ->
  isPotentiallyValid (number value) = false.
Proof.
  intros Hd Hlen. apply (number_with_too_long cardTypes value 19); auto.
  - intros t l Ht. apply (table_facts t Ht).
  - intros t p Ht Hin. pose proof (proj1 (proj2 (table_facts t Ht)) p Hin). lia.
  - lia.
Qed.

End Number.

(** ** The card validation of the checkout handler *)

Section CardValidation.
Import CreditCardType CardValidator.

Lemma validateCard_format_iff (valid_number : jsstring -> verification)
    (s : jsstring) :
  s <> [] ->
  (fails_with (validateCard valid_number s) InvalidFormat
   <-> isPotentiallyValid (valid_number (strip_whitespace s)) = false).
Proof.
  intros Hs. unfold validateCard, fails_with.
  destruct s as [| c0 s0] eqn:Es; [congruence |]. rewrite <- Es.
  destruct (isPotentiallyValid (valid_number (strip_whitespace s))); simpl.
  - split; [| discriminate]. intros (r & Hr & Hk). exfalso.
    destruct (isValid (valid_number (strip_whitespace s))); simpl in Hr.
    + destruct (card (valid_number (strip_whitespace s))) as [ct |];
        [| discriminate].
      repeat match type of Hr with
             | (if ?b then _ else _) = _ => destruct b
             end; try discriminate;
        injection Hr as <-; discriminate.
    + injection Hr as <-. discriminate.
  - split; auto. intros _. eexists. split; reflexivity.
Qed.

(** With the card-validator package, the validation never throws. *)
Lemma validateCard_number_with_no_throw (types : list CardType)
    (s : jsstring) (e : error) :
  validateCard (number_with types) s <> Throws e.
Proof.
  unfold validateCard. destruct s as [| c0 s0] eqn:Es; [discriminate |].
  rewrite <- Es.
  destruct (isPotentiallyValid _); simpl; [| discriminate].
  destruct (isValid (number_with types (strip_whitespace s))) eqn:V; simpl;
    [| discriminate].
  destruct (number_with_valid_has_card _ _ V) as [ct ->].
  repeat match goal with
         | |- (if ?b then _ else _) <> _ => destruct b
         end; discriminate.
Qed.

(** Whatever [valid.number] answers, a response of the validation is one of
    the three named error kinds. *)
Lemma validateCard_responses (valid_number : jsstring -> verification)
    (s : jsstring) (r : response) :
  validateCard valid_number s = Responds r ->
  exists k, card_error_kind r = Some k.
Proof.
  unfold validateCard. destruct s as [| c0 s0] eqn:Es; [discriminate |].
  rewrite <- Es.
  destruct (isPotentiallyValid _); simpl;
    [| intros [= <-]; eexists; reflexivity].
  destruct (isValid _); simpl; [| intros [= <-]; eexists; reflexivity].
  destruct (card _) as [ct |]; [| discriminate].
  repeat match goal with
         | |- (if ?b then _ else _) = _ -> _ => destruct b
         end; try discriminate; intros [= <-]; eexists; reflexivity.
Qed.

(** A digit string that passes the format check and the length rule of its
    brand and fails the Luhn relation is answered by one of the two checks of
    the number itself, for every brand table. *)
Lemma validateCard_number_with_checksum (types : list CardType)
    (s : jsstring) :
  all_digits s = true ->
  isPotentiallyValid (number_with types s) = true ->
  length_by_brand_ok (detected_brand (number_with types s))
                     (Z.of_nat (List.length s)) = true ->
  weighted_digit_sum s mod 10 <> 0 ->
  fails_with (validateCard (number_with types) s) ChecksumFailed.
Proof.
  intros Hd Hp Hl Hsum. unfold validateCard, fails_with.
  destruct s as [| c0 s0] eqn:Es; [exfalso; apply Hsum; reflexivity |].
  rewrite <- Es in *. rewrite (strip_whitespace_digits _ Hd), Hp. simpl.
  destruct (isValid (number_with types s)) eqn:V; simpl.
  - destruct (number_with_valid_has_card _ _ V) as [ct E].
    rewrite E in *. unfold detected_brand, length_by_brand_ok in Hl.
    rewrite E in Hl. simpl in Hl.
    assert (L : luhnCheck s = false).
    { rewrite luhnCheck_eq, (strip_whitespace_digits _ Hd), Hd.
      unfold luhn_valid. apply Z.eqb_neq in Hsum. rewrite Hsum. reflexivity. }
    rewrite L.
    destruct (String.eqb_spec (type ct) "american-express") as [T | T].
    + rewrite T in *. simpl in *. rewrite Hl. simpl.
      eexists. split; reflexivity.
    + destruct (String.eqb (type ct) "visa"
                || String.eqb (type ct) "mastercard"
                || String.eqb (type ct) "discover"); simpl.
      * rewrite Hl. simpl. eexists. split; reflexivity.
      * eexists. split; reflexivity.
  - eexists. split; reflexivity.
Qed.

End CardValidation.

Section CardClaims.
Import CreditCardType CardValidator.

Lemma strip_hyphens_after_whitespace (s : jsstring) :
  strip_hyphens_whitespace (strip_whitespace s) = strip_hyphens_whitespace s.
Proof.
  unfold strip_hyphens_whitespace, strip_whitespace.
  induction s as [| c s IH]; simpl; auto.
  destruct (is_space c) eqn:E; simpl.
  - rewrite orb_true_r. simpl. exact IH.
  - rewrite E, orb_false_r. destruct (c =? hyphen); simpl; rewrite IH; auto.
Qed.

(** C6, as stated, fails: the digit string "42" has length 2, outside 12 to
    19, and the validation does not answer it with the format error. *)
Lemma validateCard_format_counterexample :
  ~ (fails_with (validateCard number (str "42")) InvalidFormat
     <-> format_ok (str "42") = false).
Proof.
  intros [_ H]. destruct (H eq_refl) as (r & Hr & Hk).
  vm_compute in Hr. injection Hr as <-. discriminate Hk.
Qed.

(** C6, amended: the validation fails with InvalidFormat exactly when
    card-validator reports the whitespace-stripped string as not potentially
    valid; that is the case for every string with a character other than a
    digit, a hyphen or whitespace, and for every string of more than 19
    digits; and the input "123" fails with InvalidFormat. *)
Theorem validateCard_invalid_format :
  (forall s,
      fails_with (validateCard number s) InvalidFormat
      <-> isPotentiallyValid (number (strip_whitespace s)) = false)
  /\ (forall s,
         all_digits (strip_hyphens_whitespace s) = false ->
         fails_with (validateCard number s) InvalidFormat)
  /\ (forall s,
         all_digits (strip_whitespace s) = true ->
         19 < Z.of_nat (List.length (strip_whitespace s)) ->
         fails_with (validateCard number s) InvalidFormat)
  /\ fails_with (validateCard number (str "123")) InvalidFormat.
Proof.
  assert (Hiff : forall s,
             fails_with (validateCard number s) InvalidFormat
             <-> isPotentiallyValid (number (strip_whitespace s)) = false).
  { intros [| c s].
    - split; [intros (r & Hr & _); discriminate Hr | intros H].
      vm_compute in H. discriminate H.
    - apply validateCard_format_iff. discriminate. }
  split; [exact Hiff |]. split; [| split].
  - intros s H. apply Hiff. apply number_with_not_digits.
    rewrite strip_hyphens_after_whitespace. exact H.
  - intros s Hd Hlen. apply Hiff. apply number_too_long; assumption.
  - eexists. split; vm_compute; reflexivity.
Qed.

Lemma validateCard_invalid_format_witness :
  fails_with (validateCard number (str "4242 4242 4242 424x")) InvalidFormat
  /\ fails_with (validateCard number (str "42424242424242424242"))
                InvalidFormat.
Proof.
  destruct validateCard_invalid_format as (_ & Hchar & Hlong & _). split.
  - apply Hchar. reflexivity.
  - apply Hlong; [reflexivity | vm_compute; reflexivity].
Defined.

(** C7 at its own example: the 14-digit american-express prefix
    "34343434343434" passes the format check, is not valid for
    card-validator, and is answered at line 82 with "Card validation failed",
    before the length rule of line 97 is reached. *)
Theorem validateCard_amex_14_digits :
  detected_brand (number (str "34343434343434")) = Some "american-express"
  /\ isPotentiallyValid (number (str "34343434343434")) = true
  /\ isValid (number (str "34343434343434")) = false
  /\ validateCard number (str "34343434343434")
     = Responds (json 400 [("error", "Card validation failed");
                           ("details", "The provided card number failed validation checks")])
  /\ ~ fails_with (validateCard number (str "34343434343434")) InvalidLength.
Proof.
  repeat split; try (vm_compute; reflexivity).
  intros (r & Hr & Hk). vm_compute in Hr. injection Hr as <-. discriminate Hk.
Qed.

(** The american-express length rule of line 97 is never the answer to a
    string of digits and whitespace: a number that card-validator declares
    valid for that brand has 15 digits already. *)
Lemma validateCard_amex_length_unreachable (s : jsstring) :
  all_digits (strip_whitespace s) = true ->
  validateCard number s
  <> Responds (json 400 [("error", "Invalid card length");
                         ("details", "American Express cards must be 15 digits")]).
Proof.
  intros Hd. unfold validateCard, number.
  destruct s as [| c0 s0] eqn:Es; [discriminate |]. rewrite <- Es in *.
  destruct (isPotentiallyValid _); simpl; [| discriminate].
  destruct (isValid (number_with cardTypes (strip_whitespace s))) eqn:V;
    simpl; [| discriminate].
  destruct (number_with_valid_has_card _ _ V) as [ct E]. rewrite E.
  destruct (number_with_valid_length _ _ _ V E) as [Hin Hlen].
  rewrite (strip_hyphens_whitespace_digits _ Hd) in Hlen.
  destruct (String.eqb_spec (type ct) "american-express") as [T | T].
  - rewrite T. simpl.
    rewrite (proj2 (proj2 (table_facts ct Hin)) T _ Hlen). simpl.
    destruct (luhnCheck _); discriminate.
  - destruct ((String.eqb (type ct) "visa" || String.eqb (type ct) "mastercard"
               || String.eqb (type ct) "discover")
              && negb (Z.of_nat (List.length (strip_whitespace s)) =? 16)) eqn:C.
    + intros [= H]. apply T.
      apply andb_true_iff in C as [C _].
      repeat (apply orb_true_iff in C as [C | C]);
        apply String.eqb_eq in C; rewrite C in H; discriminate H.
    + simpl. destruct (luhnCheck _); discriminate.
Qed.

End CardClaims.

(** ** Digests *)

Lemma be_bytes_range (k : nat) (n : Z) :
  Forall (fun b => 0 <= b < 256) (SHA256.be_bytes k n).
Proof.
  induction k as [| k IH]; simpl; constructor; auto.
  apply Z.mod_pos_bound. lia.
Qed.

Lemma compress_length (H block : list Z) :
  List.length H = 8%nat -> List.length (SHA256.compress H block) = 8%nat.
Proof.
  intros L. unfold SHA256.compress.
  do 9 (destruct H as [| ? H]; try discriminate L). reflexivity.
Qed.

Lemma sha256_range (msg : Buffer) :
  Forall (fun b => 0 <= b < 256) (SHA256.sha256 msg).
Proof.
  unfold SHA256.sha256. apply Forall_flat_map, Forall_forall.
  intros w _. apply be_bytes_range.
Qed.

Lemma sha256_length (msg : Buffer) : List.length (SHA256.sha256 msg) = 32%nat.
Proof.
  unfold SHA256.sha256.
  set (bs := SHA256.blocks _ _).
  assert (L : List.length (fold_left SHA256.compress bs SHA256.initial_hash)
              = 8%nat).
  { generalize SHA256.initial_hash (eq_refl : List.length SHA256.initial_hash = 8%nat).
    induction bs as [| b bs IH]; intros H0 L0; simpl; auto.
    apply IH, compress_length, L0. }
  destruct (fold_left SHA256.compress bs SHA256.initial_hash)
    as [| a [| b [| c [| d [| e [| f [| g [| h [| ]]]]]]]]];
    try discriminate L.
  reflexivity.
Qed.

Lemma hex_digit_lower (d : Z) : 0 <= d < 16 -> is_lower_hex (hex_digit d) = true.
Proof.
  intros H. unfold is_lower_hex, hex_digit, is_digit.
  destruct (Z.ltb_spec d 10); apply orb_true_iff; [left | right];
    apply andb_true_iff; lia.
Qed.

Lemma hex_lowercase (bytes : Buffer) :
  Forall (fun b => 0 <= b < 256) bytes ->
  forallb is_lower_hex (hex bytes) = true.
Proof.
  induction 1 as [| b bs Hb _ IH]; simpl; auto.
  rewrite IH, !hex_digit_lower; auto.
  - apply Z.mod_pos_bound. lia.
  - split; [apply Z.div_pos; lia | apply Z.div_lt_upper_bound; lia].
Qed.

Lemma hex_length (bytes : Buffer) :
  List.length (hex bytes) = (2 * List.length bytes)%nat.
Proof.
  induction bytes as [| b bs IH]; simpl; auto. rewrite IH. lia.
Qed.

(** The computed signature is 64 lowercase hexadecimal digits. *)
Lemma hmac_hex_shape (key data : Buffer) :
  forallb is_lower_hex (hex (SHA256.hmac key data)) = true
  /\ List.length (hex (SHA256.hmac key data)) = 64%nat.
Proof.
  unfold SHA256.hmac. split.
  - apply hex_lowercase, sha256_range.
  - rewrite hex_length, sha256_length. reflexivity.
Qed.

(** ** The webhook handler *)

Section WebhookClaims.

Variable json_value : Type.
Variable Buffer_toString : Buffer -> jsstring.
Variable JSON_parse : jsstring -> option json_value.
Variable bodyParser_decode : Buffer -> jsstring.

Local Notation "'handler'" :=
  (webhook json_value Buffer_toString JSON_parse).
Local Notation "'route'" :=
  (webhook_route json_value Buffer_toString JSON_parse bodyParser_decode).
Local Notation "'middleware'" :=
  (bodyParser_json_then_raw json_value JSON_parse bodyParser_decode).

Lemma webhook_missing (secret : option jsstring)
    (body : req_body json_value) (signature : option jsstring) :
  signature = None \/ signature = Some [] ->
  handler signature secret body
  = ([ConsoleError "Missing Peach-Signature header"],
     inl (send 400 "Missing signature header")).
Proof.
  intros [-> | ->]; reflexivity.
Qed.

(** With a signature, a secret and a raw body, the handler computes the
    HMAC once, then either rejects the signature or parses the body. *)
Lemma webhook_present (signature secret : jsstring) (data : Buffer) :
  signature <> [] ->
  handler (Some signature) (Some secret) (raw_body data)
  = if string_strict_eq (expected_signature secret data) signature then
      match JSON_parse (Buffer_toString data) with
      | Some _ =>
          ([HmacComputed (utf8_encode secret) data;
            JsonParsed (Buffer_toString data);
            ConsoleLog "Received webhook event:"],
           inl (send 200 "Webhook received"))
      | None =>
          ([HmacComputed (utf8_encode secret) data;
            JsonParsed (Buffer_toString data);
            ConsoleError "Error parsing webhook JSON:"],
           inl (send 400 "Invalid JSON"))
      end
    else
      ([HmacComputed (utf8_encode secret) data;
        ConsoleError "Invalid webhook signature"],
       inl (send 401 "Invalid signature")).
Proof.
  intros Hs. destruct signature as [| c sig]; [congruence |].
  unfold expected_signature, webhook, hmac_of_body, createHmac_sha256_hex,
    JSON_parse_text.
  set (h := hex (SHA256.hmac (utf8_encode secret) data)).
  unfold bind, tell, ret, try_catch, throw. cbn [app].
  destruct (string_strict_eq h (c :: sig)); cbn [negb app].
  - destruct (JSON_parse (Buffer_toString data)); reflexivity.
  - reflexivity.
Qed.

(** Without a secret, [createHmac] throws and nothing else happens. *)
Lemma webhook_unset_secret (signature : jsstring)
    (body : req_body json_value) :
  signature <> [] ->
  handler (Some signature) None body
  = ([], inr (TypeError "The key argument must be of type string")).
Proof.
  intros Hs. destruct signature as [| c sig]; [congruence |]. reflexivity.
Qed.

(** With a signature and a body that is not raw, [update] throws and
    nothing else happens. *)
Lemma webhook_not_raw (signature : jsstring) (secret : option jsstring)
    (body : req_body json_value) :
  signature <> [] ->
  (forall data, body <> raw_body data) ->
  exists e, handler (Some signature) secret body = ([], inr e).
Proof.
  intros Hs Hb. destruct signature as [| c sig]; [congruence |].
  destruct secret as [key |]; [| eexists; reflexivity].
  destruct body as [data | v |];
    [exfalso; apply (Hb data); reflexivity | |]; eexists; reflexivity.
Qed.

(** The middleware never leaves a raw body. *)
Lemma middleware_not_raw (json_content_type supported : bool)
    (raw : Buffer) (events : list event) (body : req_body json_value) :
  middleware json_content_type supported raw = (events, inl body) ->
  forall data, body <> raw_body data.
Proof.
  unfold bodyParser_json_then_raw. intros H data ->.
  destruct (json_content_type && (0 <? Z.of_nat (List.length raw)));
    [| discriminate H].
  destruct (negb supported); [discriminate H |].
  destruct (bodyParser_limit <? Z.of_nat (List.length raw));
    [discriminate H |].
  destruct (strict_json (bodyParser_decode raw)); [| discriminate H].
  destruct (JSON_parse (bodyParser_decode raw)); discriminate H.
Qed.

(** A request with a signature never gets an answer of the handler. *)
Lemma route_signed_no_answer (json_content_type supported : bool)
    (raw : Buffer) (signature : jsstring) (secret : option jsstring)
    (r : response) :
  signature <> [] ->
  snd (route json_content_type supported raw (Some signature) secret)
  <> Handled (inl r).
Proof.
  intros Hs. unfold webhook_route.
  destruct (middleware json_content_type supported raw)
    as [events [body | status]] eqn:E; [| discriminate].
  destruct (webhook_not_raw signature secret body Hs
              (middleware_not_raw _ _ _ _ _ E)) as [e ->].
  discriminate.
Qed.

Lemma expected_signature_not_empty (secret : jsstring) (payload : Buffer) :
  expected_signature secret payload <> [].
Proof.
  intros E.
  pose proof (proj2 (hmac_hex_shape (utf8_encode secret) payload)) as L.
  unfold expected_signature in E. rewrite E in L. discriminate L.
Qed.

(** C2 on the program: the handler never gets the raw body, because the
    JSON parser of line 22 runs before the raw parser of line 219.  A
    request signed with the HMAC-SHA256 of its raw payload under the secret
    gets no answer of the handler ([update] throws on the parsed body, or
    the JSON parser refuses the request), no signature is ever answered
    with 401 "Invalid signature", and no request with 200. *)
Theorem webhook_route_never_verifies (json_content_type supported : bool)
    (raw : Buffer) (secret : jsstring) :
  (forall r,
      snd (route json_content_type supported raw
             (Some (expected_signature secret raw)) (Some secret))
      <> Handled (inl r))
  /\ (forall signature,
         snd (route json_content_type supported raw signature (Some secret))
         <> Handled (inl (send 401 "Invalid signature")))
  /\ (forall signature,
         snd (route json_content_type supported raw signature (Some secret))
         <> Handled (inl (send 200 "Webhook received"))).
Proof.
  assert (A : forall signature r,
             r <> send 400 "Missing signature header" ->
             snd (route json_content_type supported raw signature (Some secret))
             <> Handled (inl r)).
  { intros [[| c sig] |] r Hr.
    - unfold webhook_route.
      destruct (middleware json_content_type supported raw) as [ev [body | st]];
        [| discriminate].
      rewrite webhook_missing by auto. simpl. congruence.
    - apply route_signed_no_answer. discriminate.
    - unfold webhook_route.
      destruct (middleware json_content_type supported raw) as [ev [body | st]];
        [| discriminate].
      rewrite webhook_missing by auto. simpl. congruence. }
  split; [| split].
  - intros r. apply route_signed_no_answer, expected_signature_not_empty.
  - intros signature. apply A. discriminate.
  - intros signature. apply A. discriminate.
Qed.

(** C4 on the program: a JSON body that the parser of line 22 accepts is
    parsed before the handler runs, whatever the signature: the parse is the
    first event of every such request, no HMAC is computed at any point, and
    without a signature the request is answered 400 after its body has been
    parsed. *)
Theorem webhook_route_parses_unverified (raw : Buffer)
    (signature secret : option jsstring) (v : json_value) :
  0 < Z.of_nat (List.length raw) <= bodyParser_limit ->
  strict_json (bodyParser_decode raw) = true ->
  JSON_parse (bodyParser_decode raw) = Some v ->
  (exists rest,
      fst (route true true raw signature secret)
      = JsonParsed (bodyParser_decode raw) :: rest)
  /\ (forall key data,
         ~ In (HmacComputed key data) (fst (route true true raw signature secret)))
  /\ (signature = None \/ signature = Some [] ->
      route true true raw signature secret
      = ([JsonParsed (bodyParser_decode raw);
          ConsoleError "Missing Peach-Signature header"],
         Handled (inl (send 400 "Missing signature header")))).
Proof.
  intros [L1 L2] S P.
  assert (E : middleware true true raw
              = ([JsonParsed (bodyParser_decode raw)], inl (parsed_body v))).
  { unfold bodyParser_json_then_raw.
    replace (0 <? Z.of_nat (List.length raw)) with true
      by (symmetry; apply Z.ltb_lt; exact L1).
    replace (bodyParser_limit <? Z.of_nat (List.length raw)) with false
      by (symmetry; apply Z.ltb_ge; exact L2).
    cbn [andb negb]. rewrite S, P. reflexivity. }
  unfold webhook_route. rewrite E.
  destruct signature as [[| c sig] |].
  - rewrite webhook_missing by auto. simpl. split; [eauto | split; auto].
    intros key data [H | [H | []]]; discriminate H.
  - destruct (webhook_not_raw (c :: sig) secret (parsed_body v))
      as [e ->]; [discriminate | discriminate |].
    simpl. split; [eauto | split].
    + intros key data [H | []]. discriminate H.
    + intros [H | H]; discriminate H.
  - rewrite webhook_missing by auto. simpl. split; [eauto | split; auto].
    intros key data [H | [H | []]]; discriminate H.
Qed.

(** C5: when the signature header is absent or empty the handler answers
    with MissingSignature, whatever the body and the secret, and computes
    no HMAC before that. *)
Theorem webhook_missing_signature (secret : option jsstring)
    (payload : req_body json_value) :
  webhook_fails_with (handler None secret payload) MissingSignature
  /\ webhook_fails_with (handler (Some []) secret payload) MissingSignature
  /\ (forall key data,
         ~ In (HmacComputed key data) (fst (handler None secret payload)))
  /\ (forall key data,
         ~ In (HmacComputed key data)
              (fst (handler (Some []) secret payload))).
Proof.
  rewrite !webhook_missing by auto. repeat split.
  - eexists. split; reflexivity.
  - eexists. split; reflexivity.
  - intros key data [H | []]. discriminate H.
  - intros key data [H | []]. discriminate H.
Qed.

(** C9 on the program: the webhook handler raises.  Given a signature and
    the body that the middleware leaves (a parsed object or array, or no
    body), [update] throws a TypeError that nothing catches, for every
    secret; with the secret unset [createHmac] throws on every body; so no
    request that carries a signature gets an answer of the handler. *)
Theorem webhook_signed_request_throws (c : Z) (signature : jsstring) :
  (forall secret v,
      exists e, handler (Some (c :: signature)) secret (parsed_body v)
                = ([], inr e))
  /\ (forall secret,
         exists e, handler (Some (c :: signature)) secret no_body
                   = ([], inr e))
  /\ (forall body,
         exists e, handler (Some (c :: signature)) None body = ([], inr e))
  /\ (forall json_content_type supported raw secret r,
         snd (route json_content_type supported raw (Some (c :: signature)) secret)
         <> Handled (inl r)).
Proof.
  split; [| split; [| split]].
  - intros secret v. apply webhook_not_raw; discriminate.
  - intros secret. apply webhook_not_raw; discriminate.
  - intros body. rewrite webhook_unset_secret by discriminate. eauto.
  - intros ct sup raw secret r. apply route_signed_no_answer. discriminate.
Qed.

End WebhookClaims.

Lemma webhook_route_parses_unverified_witness :
  (exists rest,
      fst (webhook_route jsstring toString_ascii parse_empty toString_ascii
             true true (str "{}") None (Some (str "key")))
      = JsonParsed (toString_ascii (str "{}")) :: rest)
  /\ (forall key data,
         ~ In (HmacComputed key data)
              (fst (webhook_route jsstring toString_ascii parse_empty
                      toString_ascii true true (str "{}") None
                      (Some (str "key")))))
  /\ (@None jsstring = None \/ @None jsstring = Some [] ->
      webhook_route jsstring toString_ascii parse_empty toString_ascii
        true true (str "{}") None (Some (str "key"))
      = ([JsonParsed (toString_ascii (str "{}"));
          ConsoleError "Missing Peach-Signature header"],
         Handled (inl (send 400 "Missing signature header")))).
Proof.
  apply (webhook_route_parses_unverified jsstring toString_ascii parse_empty
           toString_ascii (str "{}") None (Some (str "key")) (str "{}")).
  - vm_compute. split; [reflexivity | discriminate].
  - reflexivity.
  - reflexivity.
Defined.

(** * Further properties of the code *)

(** ** [luhnCheck] as an error-detecting code *)

Lemma is_digit_range (c : Z) : is_digit c = true <-> 48 <= c <= 57.
Proof.
  unfold is_digit. rewrite andb_true_iff, !Z.leb_le. tauto.
Qed.

Lemma weighted_sum_app (l1 l2 : list Z) (double : bool) :
  weighted_sum_from_right (l1 ++ l2) double
  = weighted_sum_from_right l1 double
    + weighted_sum_from_right l2 (xorb double (Nat.odd (List.length l1))).
Proof.
  revert double. induction l1 as [| d l1 IH]; intros double.
  - simpl. rewrite xorb_false_r. reflexivity.
  - cbn [app weighted_sum_from_right List.length]. rewrite IH, Nat.odd_succ.
    rewrite <- Nat.negb_odd.
    destruct double, (Nat.odd (List.length l1)); simpl; lia.
Qed.

(** The weighted sum of an all-digit string, split at one of its digits:
    the digits to its right, the digit itself with the weight of its
    position, and the digits to its left. *)
Lemma weighted_digit_sum_split (a b : jsstring) (c : Z) :
  all_digits (a ++ c :: b) = true ->
  weighted_digit_sum (a ++ c :: b)
  = weighted_sum_from_right (rev (map (fun x => x - 48) b)) false
    + luhn_weight (Nat.odd (List.length b)) (c - 48)
    + weighted_sum_from_right (rev (map (fun x => x - 48) a))
        (negb (Nat.odd (List.length b))).
Proof.
  intros Hd. unfold weighted_digit_sum, digit_values.
  rewrite (strip_whitespace_digits _ Hd).
  unfold all_digits in Hd. rewrite (filter_all _ _ Hd).
  rewrite map_app, rev_app_distr. cbn [map rev].
  rewrite <- app_assoc, weighted_sum_app. cbn [app].
  rewrite length_rev, length_map, xorb_false_l.
  cbn [weighted_sum_from_right]. lia.
Qed.

Lemma all_digits_replace (a b : jsstring) (c c' : Z) :
  all_digits (a ++ c :: b) = true -> is_digit c' = true ->
  all_digits (a ++ c' :: b) = true.
Proof.
  unfold all_digits. rewrite !forallb_app. cbn [forallb].
  intros H Hc'. apply andb_true_iff in H as [Ha H].
  apply andb_true_iff in H as [_ Hb]. rewrite Ha, Hc', Hb. reflexivity.
Qed.

Lemma all_digits_middle (a b : jsstring) (c : Z) :
  all_digits (a ++ c :: b) = true -> 48 <= c <= 57.
Proof.
  unfold all_digits. rewrite forallb_app. cbn [forallb].
  intros H. apply andb_true_iff in H as [_ H].
  apply andb_true_iff in H as [Hc _]. apply is_digit_range, Hc.
Qed.

(** Two digits with the same weight modulo 10 at a position are equal. *)
Lemma luhn_weight_injective (double : bool) (d d' : Z) :
  0 <= d <= 9 -> 0 <= d' <= 9 ->
  (luhn_weight double d - luhn_weight double d') mod 10 = 0 -> d = d'.
Proof.
  intros Hd Hd' H. apply Z.mod_divide in H; [| lia]. destruct H as [k Hk].
  unfold luhn_weight in Hk.
  destruct double; [destruct (Z.ltb_spec 9 (2 * d)), (Z.ltb_spec 9 (2 * d')) |];
    lia.
Qed.

Lemma sum_mod_shift (x y : Z) :
  x mod 10 = 0 -> y mod 10 = 0 -> (x - y) mod 10 = 0.
Proof.
  intros Hx Hy. rewrite Zminus_mod, Hx, Hy. reflexivity.
Qed.

Lemma luhnCheck_digits_true (s : jsstring) :
  all_digits s = true ->
  (luhnCheck s = true <-> weighted_digit_sum s mod 10 = 0).
Proof.
  intros Hd. rewrite luhnCheck_eq, (strip_whitespace_digits _ Hd), Hd.
  unfold luhn_valid. simpl. apply Z.eqb_eq.
Qed.

(** X1: white space anywhere in the string, of any of the kinds of [\s],
    does not change the result of [luhnCheck]. *)
Theorem luhnCheck_ignores_whitespace (a w b : jsstring) :
  forallb is_space w = true ->
  luhnCheck (a ++ w ++ b) = luhnCheck (a ++ b).
Proof.
  intros Hw. rewrite !luhnCheck_unfold. unfold strip_whitespace.
  rewrite !filter_app.
  fold (strip_whitespace w). rewrite (strip_whitespace_all_space _ Hw).
  reflexivity.
Qed.

Lemma luhnCheck_ignores_whitespace_witness :
  luhnCheck (str "4242" ++ [32; 160; 9] ++ str "424242424242")
  = luhnCheck (str "4242" ++ str "424242424242").
Proof.
  apply luhnCheck_ignores_whitespace. reflexivity.
Defined.

(** X2: [luhnCheck] detects every single-digit error: replacing one digit
    of an accepted digit string by a different digit gives a rejected one. *)
Theorem luhnCheck_detects_substitution (a b : jsstring) (c c' : Z) :
  all_digits (a ++ c :: b) = true ->
  is_digit c' = true ->
  c <> c' ->
  luhnCheck (a ++ c :: b) = true ->
  luhnCheck (a ++ c' :: b) = false.
Proof.
  intros Hd Hc' Hne Hok.
  pose proof (all_digits_replace _ _ _ _ Hd Hc') as Hd'.
  destruct (luhnCheck (a ++ c' :: b)) eqn:E; [exfalso | reflexivity].
  apply (luhnCheck_digits_true _ Hd) in Hok.
  apply (luhnCheck_digits_true _ Hd') in E.
  pose proof (sum_mod_shift _ _ Hok E) as H.
  rewrite (weighted_digit_sum_split _ _ _ Hd),
          (weighted_digit_sum_split _ _ _ Hd') in H.
  apply Hne.
  pose proof (all_digits_middle _ _ _ Hd).
  apply is_digit_range in Hc'.
  assert (c - 48 = c' - 48); [| lia].
  apply (luhn_weight_injective (Nat.odd (List.length b))); try lia.
  match goal with
  | H : ?x mod 10 = 0 |- ?y mod 10 = 0 => replace y with x by lia; exact H
  end.
Qed.

Lemma luhnCheck_detects_substitution_witness :
  luhnCheck (str "424242" ++ 55 :: str "242424242") = false.
Proof.
  apply (luhnCheck_detects_substitution (str "424242") (str "242424242") 52 55);
    try reflexivity.
  vm_compute. discriminate.
Defined.

(** X3: every digit string has exactly one check digit: one digit that,
    appended to it, makes [luhnCheck] accept. *)
Theorem luhnCheck_check_digit (p : jsstring) :
  all_digits p = true ->
  exists d,
    is_digit d = true
    /\ luhnCheck (p ++ [d]) = true
    /\ forall d', is_digit d' = true -> luhnCheck (p ++ [d']) = true ->
                  d' = d.
Proof.
  intros Hp.
  set (R := weighted_sum_from_right (rev (map (fun x => x - 48) p)) true).
  assert (Hall : forall d, is_digit d = true -> all_digits (p ++ [d]) = true).
  { intros d Hd. unfold all_digits in *. rewrite forallb_app, Hp. simpl.
    rewrite Hd. reflexivity. }
  assert (Hsum : forall d, is_digit d = true ->
                   weighted_digit_sum (p ++ [d]) = (d - 48) + R).
  { intros d Hd. rewrite (weighted_digit_sum_split _ _ _ (Hall d Hd)).
    simpl. unfold R. lia. }
  pose proof (Z.mod_pos_bound (- R) 10 ltac:(lia)) as Hb.
  assert (Hd : is_digit (48 + (- R) mod 10) = true)
    by (apply is_digit_range; lia).
  exists (48 + (- R) mod 10). split; [exact Hd | split].
  - apply (luhnCheck_digits_true _ (Hall _ Hd)). rewrite (Hsum _ Hd).
    replace (48 + - R mod 10 - 48 + R) with ((- R) mod 10 + R) by lia.
    rewrite Zplus_mod_idemp_l. replace (- R + R) with 0 by lia. reflexivity.
  - intros d' Hd' Hok.
    apply (luhnCheck_digits_true _ (Hall _ Hd')) in Hok.
    rewrite (Hsum _ Hd') in Hok. apply is_digit_range in Hd'.
    assert (E : (d' - 48) mod 10 = (- R) mod 10).
    { replace (- R) with ((d' - 48) - ((d' - 48) + R)) by lia.
      rewrite (Zminus_mod (d' - 48) (d' - 48 + R)), Hok, Z.sub_0_r,
        Z.mod_mod by lia. reflexivity. }
    rewrite Z.mod_small in E by lia. lia.
Qed.

Lemma luhnCheck_check_digit_witness :
  exists d,
    is_digit d = true
    /\ luhnCheck (str "424242424242424" ++ [d]) = true
    /\ forall d', is_digit d' = true ->
                  luhnCheck (str "424242424242424" ++ [d']) = true -> d' = d.
Proof.
  apply luhnCheck_check_digit. reflexivity.
Defined.

Lemma weighted_sum_rev_split2 (la lb : list Z) (dx dy : Z) :
  weighted_sum_from_right (rev (la ++ dx :: dy :: lb)) false
  = weighted_sum_from_right (rev lb) false
    + luhn_weight (Nat.odd (List.length lb)) dy
    + luhn_weight (negb (Nat.odd (List.length lb))) dx
    + weighted_sum_from_right (rev la) (Nat.odd (List.length lb)).
Proof.
  rewrite rev_app_distr. cbn [rev]. rewrite <- !app_assoc. cbn [app].
  rewrite weighted_sum_app, length_rev, xorb_false_l.
  cbn [weighted_sum_from_right]. rewrite negb_involutive. lia.
Qed.

Lemma digit_values_split2 (a b : jsstring) (x y : Z) :
  is_digit x = true -> is_digit y = true ->
  digit_values (strip_whitespace (a ++ x :: y :: b))
  = digit_values (strip_whitespace a)
    ++ (x - 48) :: (y - 48) :: digit_values (strip_whitespace b).
Proof.
  intros Hx Hy. unfold digit_values, strip_whitespace.
  rewrite filter_app. cbn [filter].
  rewrite (digit_not_space _ Hx), (digit_not_space _ Hy). cbn [negb].
  rewrite filter_app. cbn [filter]. rewrite Hx, Hy.
  rewrite map_app. reflexivity.
Qed.

Lemma all_digits_split2 (a b : jsstring) (x y : Z) :
  is_digit x = true -> is_digit y = true ->
  all_digits (strip_whitespace (a ++ x :: y :: b))
  = all_digits (strip_whitespace a) && all_digits (strip_whitespace b).
Proof.
  intros Hx Hy. unfold all_digits, strip_whitespace.
  rewrite filter_app. cbn [filter].
  rewrite (digit_not_space _ Hx), (digit_not_space _ Hy). cbn [negb].
  rewrite forallb_app. cbn [forallb]. rewrite Hx, Hy. reflexivity.
Qed.

(** Swapping two neighbouring digits changes the weighted sum modulo 10,
    unless they are equal or are 0 and 9. *)
Lemma luhn_swap_difference (q : bool) (dx dy : Z) :
  0 <= dx <= 9 -> 0 <= dy <= 9 ->
  ((luhn_weight q dy + luhn_weight (negb q) dx)
   - (luhn_weight q dx + luhn_weight (negb q) dy)) mod 10 = 0 ->
  dx = dy \/ (dx = 0 /\ dy = 9) \/ (dx = 9 /\ dy = 0).
Proof.
  intros Hx Hy H. apply Z.mod_divide in H; [| lia]. destruct H as [k Hk].
  unfold luhn_weight in Hk.
  destruct q; cbn [negb] in Hk;
    destruct (Z.ltb_spec 9 (2 * dx)), (Z.ltb_spec 9 (2 * dy)); lia.
Qed.

(** X4: [luhnCheck] detects the transposition of two neighbouring digits
    of an accepted digit string, unless the two digits are equal or are 0
    and 9. *)
Theorem luhnCheck_detects_transposition (a b : jsstring) (x y : Z) :
  all_digits (a ++ x :: y :: b) = true ->
  x <> y ->
  ~ (x = 48 /\ y = 57) ->
  ~ (x = 57 /\ y = 48) ->
  luhnCheck (a ++ x :: y :: b) = true ->
  luhnCheck (a ++ y :: x :: b) = false.
Proof.
  intros Hd Hne H09 H90 Hok.
  assert (Hx : is_digit x = true)
    by (apply is_digit_range; apply (all_digits_middle a (y :: b) x Hd)).
  assert (Hy : is_digit y = true).
  { apply is_digit_range.
    apply (all_digits_middle (a ++ [x]) b y).
    rewrite <- app_assoc. exact Hd. }
  assert (Hd' : all_digits (a ++ y :: x :: b) = true).
  { unfold all_digits in *. rewrite forallb_app in *. cbn [forallb] in *.
    rewrite Hx, Hy in *. exact Hd. }
  destruct (luhnCheck (a ++ y :: x :: b)) eqn:E; [exfalso | reflexivity].
  apply (luhnCheck_digits_true _ Hd) in Hok.
  apply (luhnCheck_digits_true _ Hd') in E.
  pose proof (sum_mod_shift _ _ Hok E) as H.
  unfold weighted_digit_sum in H.
  rewrite (digit_values_split2 _ _ _ _ Hx Hy),
          (digit_values_split2 _ _ _ _ Hy Hx),
          !weighted_sum_rev_split2 in H.
  apply is_digit_range in Hx, Hy.
  destruct (luhn_swap_difference
              (Nat.odd (List.length (digit_values (strip_whitespace b))))
              (x - 48) (y - 48)) as [D | [D | D]]; try lia.
  match goal with
  | H : ?u mod 10 = 0 |- ?v mod 10 = 0 => replace v with u by lia; exact H
  end.
Qed.

Lemma luhnCheck_detects_transposition_witness :
  luhnCheck (str "4242424242424" ++ 52 :: 50 :: str "2") = false.
Proof.
  apply (luhnCheck_detects_transposition (str "4242424242424") (str "2") 50 52);
    try reflexivity; lia.
Defined.

(** X5: [luhnCheck] never tells 09 from 90: exchanging a neighbouring 0 and
    9 anywhere in any string leaves its result unchanged. *)
Theorem luhnCheck_misses_zero_nine (a b : jsstring) :
  luhnCheck (a ++ 48 :: 57 :: b) = luhnCheck (a ++ 57 :: 48 :: b).
Proof.
  rewrite !luhnCheck_eq. unfold luhn_valid, weighted_digit_sum.
  rewrite !all_digits_split2, !digit_values_split2 by reflexivity.
  rewrite !weighted_sum_rev_split2.
  match goal with
  | |- _ && (?u mod 10 =? 0) = _ && (?v mod 10 =? 0) =>
      assert (E : u = v); [| rewrite E; reflexivity]
  end.
  destruct (Nat.odd (List.length (digit_values (strip_whitespace b))));
    cbn [negb];
    change (luhn_weight true (48 - 48)) with 0;
    change (luhn_weight false (48 - 48)) with 0;
    change (luhn_weight true (57 - 48)) with 9;
    change (luhn_weight false (57 - 48)) with 9; lia.
Qed.

(** ** [luhnCheck] and the checksum of card-validator *)

Lemma luhn10_step_eq (st : number * bool) (c : Z) :
  CardValidator.luhn10_step st c = luhn_step st c.
Proof.
  destruct st as [sum alt]. unfold CardValidator.luhn10_step, luhn_step.
  rewrite parseInt10_char. destruct alt; [| reflexivity].
  destruct (is_digit c) eqn:Hc; [| reflexivity].
  apply is_digit_range in Hc.
  unfold num_mul, num_gt, num_rem, num_add, num_sub.
  destruct (Z.ltb_spec 9 ((c - 48) * 2)); [| reflexivity].
  cbn [Z.eqb]. destruct sum as [| x]; [reflexivity |].
  assert (E : Z.rem ((c - 48) * 2) 10 + 1 = (c - 48) * 2 - 9).
  { rewrite Z.rem_mod_nonneg by lia.
    pose proof (Z.div_mod ((c - 48) * 2) 10 ltac:(lia)).
    pose proof (Z.mod_pos_bound ((c - 48) * 2) 10 ltac:(lia)). lia. }
  rewrite E. reflexivity.
Qed.

Lemma luhn10_fold_eq (l : jsstring) (st : number * bool) :
  fold_left CardValidator.luhn10_step l st = fold_left luhn_step l st.
Proof.
  revert st. induction l as [| c l IH]; intros st; simpl; auto.
  rewrite luhn10_step_eq. apply IH.
Qed.

Lemma luhnCheck_luhn10_eq (s : jsstring) :
  luhnCheck s = CardValidator.luhn10 (strip_whitespace s).
Proof.
  rewrite luhnCheck_unfold. unfold CardValidator.luhn10, luhn_loop.
  rewrite luhn10_fold_eq. destruct (fold_left luhn_step _ _). reflexivity.
Qed.

(** X6: the handler's own [luhnCheck] computes what card-validator's
    [luhn10] computes on the whitespace-stripped string, on every string:
    the doubled digit above 9 is reduced by [digit - 9] in the one and by
    [digit % 10 + 1] in the other, and a character that is no digit makes
    both return false. *)
Theorem luhnCheck_is_luhn10 (s : jsstring) :
  luhnCheck s = CardValidator.luhn10 (strip_whitespace s)
  /\ (all_digits (strip_whitespace s) = false ->
      CardValidator.luhn10 (strip_whitespace s) = false).
Proof.
  split; [apply luhnCheck_luhn10_eq |].
  intros D. rewrite <- luhnCheck_luhn10_eq, luhnCheck_eq, D. reflexivity.
Qed.

Lemma luhnCheck_is_luhn10_witness :
  CardValidator.luhn10 (strip_whitespace (str "4242-4242-4242-4242")) = false.
Proof.
  apply (proj2 (luhnCheck_is_luhn10 (str "4242-4242-4242-4242"))).
  reflexivity.
Defined.

(** ** The checksum failure of the card validation *)

Section CardChecksum.
Import CreditCardType CardValidator.

(** A digit string with a settled brand other than unionpay, as long as the
    brand's largest length or longer, is potentially valid only if it passes
    the checksum. *)
Lemma number_with_at_max (types : list CardType) (s : jsstring)
    (ct : CardType) :
  all_digits s = true ->
  card (number_with types s) = Some ct ->
  type ct <> "unionpay" ->
  maxOf (lengths ct) <= Z.of_nat (List.length s) ->
  luhnCheck s = false ->
  isPotentiallyValid (number_with types s) = false.
Proof.
  intros Hd Hc Ht Hm L.
  rewrite luhnCheck_luhn10_eq, (strip_whitespace_digits _ Hd) in L.
  revert Hc. unfold number_with.
  rewrite (strip_hyphens_whitespace_digits _ Hd), Hd. cbn [negb].
  destruct (creditCardType types s) as [| c0 [| c1 l]];
    [reflexivity | | discriminate].
  cbv zeta.
  destruct (existsb _ (lengths c0)); cbn [card isPotentiallyValid];
    intros [= ->].
  - apply String.eqb_neq in Ht. rewrite Ht, L, orb_false_r.
    apply Z.ltb_ge. exact Hm.
  - apply Z.ltb_ge. exact Hm.
Qed.

(** A digit string with a settled brand, shorter than the brand's largest
    length, is potentially valid. *)
Lemma number_with_below_max (types : list CardType) (s : jsstring)
    (ct : CardType) :
  all_digits s = true ->
  card (number_with types s) = Some ct ->
  Z.of_nat (List.length s) < maxOf (lengths ct) ->
  isPotentiallyValid (number_with types s) = true.
Proof.
  intros Hd Hc Hm. revert Hc. unfold number_with.
  rewrite (strip_hyphens_whitespace_digits _ Hd), Hd. cbn [negb].
  destruct (creditCardType types s) as [| c0 [| c1 l]];
    [discriminate | | discriminate].
  cbv zeta. apply Z.ltb_lt in Hm.
  destruct (existsb _ (lengths c0)); cbn [card isPotentiallyValid];
    intros [= ->]; rewrite Hm; reflexivity.
Qed.

Lemma fails_with_one_kind (c : completion) (k k' : CardValidationError) :
  fails_with c k -> fails_with c k' -> k = k'.
Proof.
  intros (r & -> & Hk) (r' & [= <-] & Hk'). congruence.
Qed.

Lemma weighted_digit_sum_luhnCheck (s : jsstring) :
  weighted_digit_sum s mod 10 <> 0 -> luhnCheck s = false.
Proof.
  intros Hsum. rewrite luhnCheck_eq. unfold luhn_valid.
  apply Z.eqb_neq in Hsum. rewrite Hsum. apply andb_false_r.
Qed.

(** C8, as stated, fails: the digit string "5555555555554445" has 16 digits,
    which is inside 12 to 19 and is the length of its brand, mastercard, and
    its weighted digit sum is not divisible by 10; the validation answers it
    with the format error of line 76, not with a checksum error. *)
Lemma validateCard_checksum_counterexample :
  all_digits (str "5555555555554445") = true
  /\ format_ok (str "5555555555554445") = true
  /\ detected_brand (number (str "5555555555554445")) = Some "mastercard"
  /\ length_by_brand_ok (detected_brand (number (str "5555555555554445")))
       (Z.of_nat (List.length (str "5555555555554445"))) = true
  /\ weighted_digit_sum (str "5555555555554445") mod 10 <> 0
  /\ validateCard number (str "5555555555554445")
     = Responds (json 400 [("error", "Invalid card format");
                           ("details", "The card number format is not valid")])
  /\ ~ fails_with (validateCard number (str "5555555555554445"))
         ChecksumFailed.
Proof.
  repeat split; try (vm_compute; reflexivity).
  - vm_compute. discriminate.
  - intros (r & Hr & Hk). vm_compute in Hr. injection Hr as <-.
    discriminate Hk.
Qed.

(** C8, amended: the format check is card-validator's [isPotentiallyValid]
    (line 76).  A canonical digit string that is potentially valid, passes
    the length rule of its brand and has a weighted digit sum not divisible
    by 10 fails with ChecksumFailed; that is so for every such string with a
    settled brand that is shorter than the brand's largest length, while one
    with a settled brand other than unionpay that is as long as the brand's
    largest length fails with InvalidFormat instead; and
    "4242424242424241", three digits short of the largest visa length, fails
    with ChecksumFailed. *)
Theorem validateCard_checksum_failed :
  (forall s,
      all_digits s = true ->
      isPotentiallyValid (number s) = true ->
      length_by_brand_ok (detected_brand (number s))
                         (Z.of_nat (List.length s)) = true ->
      weighted_digit_sum s mod 10 <> 0 ->
      fails_with (validateCard number s) ChecksumFailed)
  /\ (forall s ct,
         all_digits s = true ->
         card (number s) = Some ct ->
         Z.of_nat (List.length s) < maxOf (lengths ct) ->
         length_by_brand_ok (Some (type ct)) (Z.of_nat (List.length s))
         = true ->
         weighted_digit_sum s mod 10 <> 0 ->
         fails_with (validateCard number s) ChecksumFailed)
  /\ (forall s ct,
         all_digits s = true ->
         card (number s) = Some ct ->
         type ct <> "unionpay" ->
         maxOf (lengths ct) <= Z.of_nat (List.length s) ->
         weighted_digit_sum s mod 10 <> 0 ->
         fails_with (validateCard number s) InvalidFormat
         /\ ~ fails_with (validateCard number s) ChecksumFailed)
  /\ fails_with (validateCard number (str "4242424242424241")) ChecksumFailed.
Proof.
  split; [| split; [| split]].
  - intros s Hd Hp Hl Hsum.
    apply validateCard_number_with_checksum; auto.
  - intros s ct Hd Hc Hm Hl Hsum.
    apply validateCard_number_with_checksum; auto.
    + apply (number_with_below_max cardTypes _ ct); auto.
    + unfold detected_brand. fold number. rewrite Hc. exact Hl.
  - intros s ct Hd Hc Ht Hm Hsum.
    assert (F : fails_with (validateCard number s) InvalidFormat).
    { destruct s as [| c s']; [exfalso; apply Hsum; reflexivity |].
      apply validateCard_format_iff; [discriminate |].
      rewrite (strip_whitespace_digits _ Hd).
      apply (number_with_at_max cardTypes _ ct); auto.
      apply weighted_digit_sum_luhnCheck. exact Hsum. }
    split; [exact F |].
    intros C. pose proof (fails_with_one_kind _ _ _ F C). discriminate.
  - eexists. split; vm_compute; reflexivity.
Qed.

Lemma validateCard_checksum_failed_witness :
  fails_with (validateCard number (str "4111111111111112")) ChecksumFailed
  /\ fails_with (validateCard number (str "378282246310006")) InvalidFormat.
Proof.
  destruct validateCard_checksum_failed as (Hsum & _ & Hmax & _). split.
  - apply Hsum.
    + reflexivity.
    + reflexivity.
    + reflexivity.
    + vm_compute. discriminate.
  - apply (Hmax (str "378282246310006")
             {| type := "american-express";
                patterns := [Exact 34; Exact 37];
                lengths := [15] |}).
    + reflexivity.
    + vm_compute. reflexivity.
    + discriminate.
    + vm_compute. discriminate.
    + vm_compute. discriminate.
Defined.

(** X21: with the card-validator package the card validation throws on no
    string: it lets the request through or answers with one of
    InvalidFormat, InvalidLength and ChecksumFailed (a number that
    card-validator declares valid has a brand, so that line 89 reads the
    type of a card that is there), and the [catch] of the checkout handler
    never answers for it. *)
Theorem validateCard_never_throws (s : jsstring) :
  (forall e, validateCard number s <> Throws e)
  /\ (validateCard number s = Continues
      \/ exists r k, validateCard number s = Responds r
                     /\ card_error_kind r = Some k)
  /\ checkout_card_stage number s = validateCard number s.
Proof.
  assert (N : forall e, validateCard number s <> Throws e)
    by (intros e; apply validateCard_number_with_no_throw).
  split; [exact N |]. split.
  - destruct (validateCard number s) as [r | | e] eqn:E.
    + right. destruct (validateCard_responses _ _ _ E) as [k Hk]. eauto.
    + left. reflexivity.
    + exfalso. apply (N e). reflexivity.
  - unfold checkout_card_stage.
    destruct (validateCard number s) as [r | | e] eqn:E; try reflexivity.
    exfalso. apply (N e). reflexivity.
Qed.

End CardChecksum.

(** ** What the card validation accepts and where each rule applies *)

Section CardExtras.
Import CreditCardType CardValidator.

Lemma brand_lengths_in (t : CardType) (l : Z) :
  In t cardTypes -> In l (lengths t) -> In l (brand_lengths (type t)).
Proof.
  intros Ht Hl. unfold brand_lengths. apply in_flat_map.
  exists t. split; [exact Ht |]. rewrite String.eqb_refl. exact Hl.
Qed.

Lemma table_length_range_holds (t : CardType) (l : Z) :
  In t cardTypes -> In l (lengths t) -> 12 <= l <= 19.
Proof.
  intros Ht Hl.
  assert (H : table_length_range = true) by (vm_compute; reflexivity).
  unfold table_length_range in H. rewrite forallb_forall in H.
  specialize (H t Ht). rewrite forallb_forall in H. specialize (H l Hl).
  apply andb_true_iff in H. lia.
Qed.

Lemma strip_hyphens_no_hyphen (s : jsstring) :
  existsb (fun c => c =? hyphen) s = false ->
  strip_hyphens_whitespace s = strip_whitespace s.
Proof.
  unfold strip_hyphens_whitespace, strip_whitespace.
  induction s as [| c s IH]; simpl; auto.
  intros H. apply orb_false_iff in H as [Hc Hs]. rewrite Hc. simpl.
  rewrite (IH Hs). reflexivity.
Qed.

Lemma existsb_strip_whitespace (f : Z -> bool) (s : jsstring) :
  existsb f s = false -> existsb f (strip_whitespace s) = false.
Proof.
  unfold strip_whitespace. induction s as [| c s IH]; simpl; auto.
  intros H. apply orb_false_iff in H as [Hc Hs].
  destruct (negb (is_space c)); simpl; [rewrite Hc |]; auto.
Qed.

(** What [valid.number] has established when it answers [isValid]: the
    stripped value is all digits, has a length of its brand, and passes
    [luhn10] unless the brand is unionpay. *)
Lemma number_with_valid_facts (types : list CardType) (value : jsstring)
    (c : CardType) :
  isValid (number_with types value) = true ->
  card (number_with types value) = Some c ->
  all_digits (strip_hyphens_whitespace value) = true
  /\ (type c <> "unionpay" ->
      luhn10 (strip_hyphens_whitespace value) = true).
Proof.
  unfold number_with.
  destruct (all_digits (strip_hyphens_whitespace value)); [| discriminate].
  cbn [negb].
  destruct (creditCardType types (strip_hyphens_whitespace value))
    as [| c0 [| c' l]]; try discriminate.
  destruct (existsb _ (lengths c0)); simpl; [| discriminate].
  intros V [= <-]. split; [reflexivity |]. intros U.
  destruct (String.eqb_spec (type c0) "unionpay"); [contradiction | exact V].
Qed.

(** The state of the validation once it is past lines 76 and 82. *)
Lemma validateCard_past_valid (s : jsstring) (c : completion) :
  s <> [] ->
  validateCard number s = c ->
  (exists r, c = Responds r /\ (card_error_kind r = Some InvalidFormat
                                \/ r = json 400 [("error", "Card validation failed");
                                                 ("details", "The provided card number failed validation checks")]))
  \/ exists ct,
       isValid (number (strip_whitespace s)) = true
       /\ card (number (strip_whitespace s)) = Some ct
       /\ c = (let cardNumber := strip_whitespace s in
               if (String.eqb (type ct) "visa"
                   || String.eqb (type ct) "mastercard"
                   || String.eqb (type ct) "discover")
                  && negb (Z.of_nat (List.length cardNumber) =? 16) then
                 Responds (json 400 [("error", "Invalid card length");
                                     ("details", (type ct ++ " cards must be 16 digits")%string)])
               else if String.eqb (type ct) "american-express"
                       && negb (Z.of_nat (List.length cardNumber) =? 15) then
                 Responds (json 400 [("error", "Invalid card length");
                                     ("details", "American Express cards must be 15 digits")])
               else if negb (luhnCheck cardNumber) then
                 Responds (json 400 [("error", "Invalid card number");
                                     ("details", "The card number failed the Luhn algorithm check")])
               else Continues).
Proof.
  intros Hs <-. unfold validateCard.
  destruct s as [| c0 s0] eqn:Es; [congruence |]. rewrite <- Es.
  destruct (isPotentiallyValid (number (strip_whitespace s))); simpl.
  - destruct (isValid (number (strip_whitespace s))) eqn:V; simpl.
    + destruct (number_with_valid_has_card _ _ V) as [ct E].
      right. exists ct. unfold number in *. rewrite E. auto.
    + left. eexists. split; [reflexivity | right; reflexivity].
  - left. eexists. split; [reflexivity | left; reflexivity].
Qed.

(** X7: every card number that the validation lets through consists of
    digits and white space only, has between 12 and 19 digits, the 16 or 15
    digits of its brand where the brand has a rule, and satisfies the Luhn
    relation. *)
Theorem validateCard_accepts_sound (s : jsstring) :
  s <> [] ->
  validateCard number s = Continues ->
  all_digits (strip_whitespace s) = true
  /\ 12 <= Z.of_nat (List.length (strip_whitespace s)) <= 19
  /\ (exists b, detected_brand (number (strip_whitespace s)) = Some b)
  /\ length_by_brand_ok (detected_brand (number (strip_whitespace s)))
                        (Z.of_nat (List.length (strip_whitespace s))) = true
  /\ weighted_digit_sum s mod 10 = 0.
Proof.
  intros Hs Hc.
  destruct (validateCard_past_valid s _ Hs Hc)
    as [(r & Hr & _) | (ct & V & E & H)]; [discriminate Hr |].
  cbv zeta in H.
  destruct ((String.eqb (type ct) "visa" || String.eqb (type ct) "mastercard"
             || String.eqb (type ct) "discover")
            && negb (Z.of_nat (List.length (strip_whitespace s)) =? 16)) eqn:C1;
    [discriminate H |].
  destruct (String.eqb (type ct) "american-express"
            && negb (Z.of_nat (List.length (strip_whitespace s)) =? 15)) eqn:C2;
    [discriminate H |].
  destruct (luhnCheck (strip_whitespace s)) eqn:L; [| discriminate H].
  rewrite luhnCheck_eq, strip_whitespace_idem in L.
  apply andb_true_iff in L as [D L].
  destruct (number_with_valid_length _ _ _ V E) as [Hin Hlen].
  assert (T : strip_hyphens_whitespace (strip_whitespace s)
              = strip_whitespace s).
  { apply strip_hyphens_whitespace_digits, D. }
  rewrite T in Hlen.
  split; [| split; [| split; [| split]]].
  - exact D.
  - apply (table_length_range_holds ct _ Hin Hlen).
  - unfold detected_brand. rewrite E. simpl. eauto.
  - unfold detected_brand. rewrite E. simpl.
    destruct (String.eqb (type ct) "visa" || String.eqb (type ct) "mastercard"
              || String.eqb (type ct) "discover"); simpl in C1.
    + apply negb_false_iff in C1. exact C1.
    + destruct (String.eqb (type ct) "american-express"); simpl in C2; auto.
      apply negb_false_iff in C2. exact C2.
  - unfold luhn_valid, weighted_digit_sum in L.
    rewrite strip_whitespace_idem in L. apply Z.eqb_eq in L. exact L.
Qed.

Lemma validateCard_accepts_sound_witness :
  all_digits (strip_whitespace (str "4242 4242 4242 4242")) = true
  /\ 12 <= Z.of_nat (List.length (strip_whitespace (str "4242 4242 4242 4242")))
     <= 19
  /\ (exists b, detected_brand
                  (number (strip_whitespace (str "4242 4242 4242 4242")))
                = Some b)
  /\ length_by_brand_ok
       (detected_brand (number (strip_whitespace (str "4242 4242 4242 4242"))))
       (Z.of_nat (List.length (strip_whitespace (str "4242 4242 4242 4242"))))
     = true
  /\ weighted_digit_sum (str "4242 4242 4242 4242") mod 10 = 0.
Proof.
  apply validateCard_accepts_sound.
  - vm_compute. discriminate.
  - vm_compute. reflexivity.
Defined.

Lemma validateCard_strip (valid_number : jsstring -> verification)
    (s : jsstring) :
  strip_whitespace s <> [] ->
  validateCard valid_number s = validateCard valid_number (strip_whitespace s).
Proof.
  intros Hs. unfold validateCard.
  destruct s as [| c0 s0] eqn:Es; [contradiction Hs; reflexivity |].
  rewrite <- Es in *.
  destruct (strip_whitespace s) as [| c1 s1] eqn:E1; [congruence |].
  rewrite <- E1, strip_whitespace_idem. reflexivity.
Qed.

(** X8: white space does not matter to the validation, whatever
    [valid.number] does, as long as something else is left: a string and
    its whitespace-stripped form get the same answer.  A string of white
    space alone is answered with "Card validation failed", the empty string
    is not validated at all. *)
Theorem validateCard_ignores_whitespace :
  (forall (valid_number : jsstring -> verification) (s : jsstring),
      strip_whitespace s <> [] ->
      validateCard valid_number s
      = validateCard valid_number (strip_whitespace s))
  /\ (forall s,
         s <> [] -> forallb is_space s = true ->
         validateCard number s
         = Responds (json 400 [("error", "Card validation failed");
                               ("details", "The provided card number failed validation checks")])
         /\ validateCard number (strip_whitespace s) = Continues).
Proof.
  split.
  - intros vn s Hs. apply validateCard_strip, Hs.
  - intros s Hs Hw. unfold validateCard.
    rewrite (strip_whitespace_all_space _ Hw).
    destruct s as [| c0 s0]; [congruence |]. split; reflexivity.
Qed.

Lemma validateCard_ignores_whitespace_witness :
  validateCard number (str " 4242 4242 4242 4241 ")
  = validateCard number (strip_whitespace (str " 4242 4242 4242 4241 "))
  /\ validateCard number [32; 9; 160]
     = Responds (json 400 [("error", "Card validation failed");
                           ("details", "The provided card number failed validation checks")]).
Proof.
  destruct validateCard_ignores_whitespace as [H1 H2]. split.
  - apply H1. vm_compute. discriminate.
  - apply (H2 [32; 9; 160]); [discriminate | reflexivity].
Defined.

(** X9: the handler's own Luhn check (line 104) rejects nothing that
    card-validator has not rejected already, except numbers of the unionpay
    brand, which card-validator does not check, and numbers written with
    hyphens, which [luhnCheck] cannot read. *)
Theorem validateCard_luhn_step_reach (s : jsstring) :
  validateCard number s
  = Responds (json 400 [("error", "Invalid card number");
                        ("details", "The card number failed the Luhn algorithm check")]) ->
  detected_brand (number (strip_whitespace s)) = Some "unionpay"
  \/ existsb (fun c => c =? hyphen) s = true.
Proof.
  intros H.
  assert (Hs : s <> []) by (intros ->; discriminate H).
  destruct (validateCard_past_valid s _ Hs H)
    as [(r & Hr & [Hk | Hk]) | (ct & V & E & H')].
  - injection Hr as <-. discriminate Hk.
  - injection Hr as <-. discriminate Hk.
  - destruct (luhnCheck (strip_whitespace s)) eqn:L.
    + exfalso. cbv zeta in H'. rewrite L in H'. cbn [negb] in H'.
      repeat match type of H' with
             | _ = (if ?b then _ else _) => destruct b
             end; discriminate H'.
    + destruct (String.eqb_spec (type ct) "unionpay") as [U | U].
      * left. unfold detected_brand. rewrite E. simpl. rewrite U.
        reflexivity.
      * right. destruct (existsb (fun c => c =? hyphen) s) eqn:X; auto.
        exfalso.
        destruct (number_with_valid_facts _ _ _ V E) as [_ L10].
        specialize (L10 U).
        rewrite (strip_hyphens_no_hyphen _ (existsb_strip_whitespace _ _ X)),
                strip_whitespace_idem in L10.
        rewrite luhnCheck_luhn10_eq, strip_whitespace_idem in L. congruence.
Qed.

Lemma validateCard_luhn_step_reach_witness :
  detected_brand (number (strip_whitespace (str "6200000000000000")))
  = Some "unionpay"
  \/ existsb (fun c => c =? hyphen) (str "6200000000000000") = true.
Proof.
  apply validateCard_luhn_step_reach. vm_compute. reflexivity.
Defined.

(** X10: on a string of digits and white space, the length rule by brand
    (lines 89-102) answers only for a visa number of 18 or 19 digits and for
    a discover number of 19 digits; it never answers for mastercard or
    american-express. *)
Theorem validateCard_length_rule_reach (s : jsstring) (r : response) :
  all_digits (strip_whitespace s) = true ->
  validateCard number s = Responds r ->
  card_error_kind r = Some InvalidLength ->
  (detected_brand (number (strip_whitespace s)) = Some "visa"
   /\ (Z.of_nat (List.length (strip_whitespace s)) = 18
       \/ Z.of_nat (List.length (strip_whitespace s)) = 19))
  \/ (detected_brand (number (strip_whitespace s)) = Some "discover"
      /\ Z.of_nat (List.length (strip_whitespace s)) = 19).
Proof.
  intros D H K.
  assert (Hs : s <> []) by (intros ->; discriminate H).
  destruct (validateCard_past_valid s _ Hs H)
    as [(r' & Hr & [Hk | Hk]) | (ct & V & E & H')].
  - injection Hr as <-. congruence.
  - injection Hr as <-. subst r. discriminate K.
  - destruct (number_with_valid_length _ _ _ V E) as [Hin Hlen].
    rewrite (strip_hyphens_whitespace_digits _ D) in Hlen.
    pose proof (brand_lengths_in ct _ Hin Hlen) as B.
    unfold detected_brand. rewrite E. simpl.
    cbv zeta in H'.
    remember (Z.of_nat (List.length (strip_whitespace s))) as len eqn:Elen.
    clear Elen Hlen.
    destruct (String.eqb_spec (type ct) "visa") as [T | _].
    { rewrite T in *. change (brand_lengths "visa") with [16; 18; 19] in B.
      destruct B as [B | [B | [B | []]]]; [| left; auto | left; auto].
      rewrite <- B in H'. simpl in H'.
      destruct (luhnCheck (strip_whitespace s)); simpl in H';
        first [discriminate H' | injection H' as ->; discriminate K]. }
    destruct (String.eqb_spec (type ct) "mastercard") as [T | _].
    { rewrite T in *. change (brand_lengths "mastercard") with [16] in B.
      destruct B as [B | []].
      rewrite <- B in H'. simpl in H'.
      destruct (luhnCheck (strip_whitespace s)); simpl in H';
        first [discriminate H' | injection H' as ->; discriminate K]. }
    destruct (String.eqb_spec (type ct) "discover") as [T | _].
    { rewrite T in *. change (brand_lengths "discover") with [16; 19] in B.
      destruct B as [B | [B | []]]; [| right; auto].
      rewrite <- B in H'. simpl in H'.
      destruct (luhnCheck (strip_whitespace s)); simpl in H';
        first [discriminate H' | injection H' as ->; discriminate K]. }
    simpl in H'.
    destruct (String.eqb_spec (type ct) "american-express") as [T | _].
    { rewrite T in *. change (brand_lengths "american-express") with [15] in B.
      destruct B as [B | []].
      rewrite <- B in H'. simpl in H'.
      destruct (luhnCheck (strip_whitespace s)); simpl in H';
        first [discriminate H' | injection H' as ->; discriminate K]. }
    simpl in H'.
    destruct (luhnCheck (strip_whitespace s)); simpl in H';
      first [discriminate H' | injection H' as ->; discriminate K].
Qed.

Lemma validateCard_length_rule_reach_witness :
  (detected_brand (number (strip_whitespace (str "4111111111111111110")))
   = Some "visa"
   /\ (Z.of_nat (List.length (strip_whitespace (str "4111111111111111110")))
       = 18
       \/ Z.of_nat (List.length (strip_whitespace (str "4111111111111111110")))
          = 19))
  \/ (detected_brand (number (strip_whitespace (str "4111111111111111110")))
      = Some "discover"
      /\ Z.of_nat (List.length (strip_whitespace (str "4111111111111111110")))
         = 19).
Proof.
  apply (validateCard_length_rule_reach (str "4111111111111111110")
           (json 400 [("error", "Invalid card length");
                      ("details", "visa cards must be 16 digits")])).
  - reflexivity.
  - vm_compute. reflexivity.
  - reflexivity.
Defined.

End CardExtras.

(** ** More on the webhook handler *)

Section WebhookExtras.

Variable json_value : Type.
Variable Buffer_toString : Buffer -> jsstring.
Variable JSON_parse : jsstring -> option json_value.
Variable bodyParser_decode : Buffer -> jsstring.

Local Notation "'handler'" :=
  (webhook json_value Buffer_toString JSON_parse).
Local Notation "'route'" :=
  (webhook_route json_value Buffer_toString JSON_parse bodyParser_decode).

(** X13: with [PEACH_WEBHOOK_SECRET] unset the handler verifies nothing,
    whatever the body: its only answer is 400 "Missing signature header",
    and a request that has a signature makes [createHmac] throw before
    anything is logged or answered. *)
Theorem webhook_without_secret (signature : option jsstring)
    (payload : req_body json_value) :
  (forall r, snd (handler signature None payload) = inl r ->
             r = send 400 "Missing signature header")
  /\ (forall sig, signature = Some sig -> sig <> [] ->
                  exists e, handler signature None payload = ([], inr e)).
Proof.
  split.
  - intros r H. destruct signature as [[| c sig] |].
    + rewrite webhook_missing in H by auto. simpl in H. congruence.
    + rewrite webhook_unset_secret in H by discriminate. discriminate H.
    + rewrite webhook_missing in H by auto. simpl in H. congruence.
  - intros sig -> Hs. rewrite webhook_unset_secret by exact Hs. eauto.
Qed.


End WebhookExtras.

Lemma webhook_without_secret_witness :
  exists e,
    webhook jsstring toString_ascii parse_literal (Some (str "00")) None
      (raw_body (str "null"))
    = ([], inr e).
Proof.
  apply (proj2 (webhook_without_secret jsstring toString_ascii parse_literal
                  (Some (str "00")) (raw_body (str "null"))) (str "00"));
    [reflexivity | discriminate].
Defined.

(** ** The verification endpoint *)

Lemma truthy_or_else (a b : value) :
  truthy b = true -> truthy (or_else a b) = true.
Proof.
  intros Hb. unfold or_else. destruct (truthy a) eqn:E; auto.
Qed.

Lemma is_status_spec (v : value) (s : string) :
  is_status v s = true <-> v = VString (str s).
Proof.
  unfold is_status. destruct v; try (split; [discriminate | discriminate]).
  rewrite string_strict_eq_spec. split; [intros ->; reflexivity |].
  intros [= ->]. reflexivity.
Qed.

(** The four answers of the endpoint, by the value of [simulateStatus]. *)
Lemma verify_payment_reply_cases (params : value) :
  let id := field params "id" in
  let amount := field params "amount" in
  let simulateStatus := field params "simulateStatus" in
  (simulateStatus = VString (str "failed")
   /\ verify_payment_reply params
      = JsonReply 200
          (obj [("success", VBool false);
                ("message", text "Payment verification failed");
                ("transactionId", or_else id (text "mock-failed-transaction"));
                ("status", text "FAILED")]))
  \/ (simulateStatus <> VString (str "failed")
      /\ exists message mock status,
           verify_payment_reply params
           = JsonReply 200
               (obj [("success", VBool true);
                     ("message", text message);
                     ("transactionId", or_else id (text mock));
                     ("status", text status);
                     ("amount", or_else amount (VNumber 9200%float))])
           /\ mock <> EmptyString
           /\ (status = "PENDING" \/ status = "REFUNDED" \/ status = "SUCCESS")).
Proof.
  cbv zeta. unfold verify_payment_reply.
  destruct (is_status (field params "simulateStatus") "failed") eqn:F.
  - left. apply is_status_spec in F. rewrite F. split; reflexivity.
  - right.
    assert (N : field params "simulateStatus" <> VString (str "failed")).
    { intros E. apply is_status_spec in E. congruence. }
    split; [exact N |].
    destruct (truthy (field params "simulateStatus"));
      [destruct (is_status (field params "simulateStatus") "pending");
       [| destruct (is_status (field params "simulateStatus") "refunded")] |];
      do 3 eexists; (split; [reflexivity |]); split;
        try discriminate; auto.
Qed.

(** The handler answers for every body but [null] and [undefined], on which
    it throws. *)
Lemma verify_payment_answers (params : value) :
  (nullish params = true ->
   exists e, verify_payment params
             = ([Log "Verifying payment with params:"], inr e))
  /\ (nullish params = false ->
      verify_payment params
      = ([Log "Verifying payment with params:"],
         inl (verify_payment_reply params))).
Proof.
  unfold verify_payment. split; intros ->; eauto.
Qed.

(** A field of a serialised object, when no key occurs twice. *)
Lemma lookup_absent (k : jsstring) (fields : list (jsstring * value)) :
  ~ In k (map fst fields) -> lookup k fields = VUndefined.
Proof.
  induction fields as [| [k' v] rest IH]; simpl; intros H; auto.
  destruct (string_strict_eq k k') eqn:E.
  - apply string_strict_eq_spec in E. subst k'. tauto.
  - apply IH. tauto.
Qed.

Local Notation "'sent_fields'" :=
  (flat_map (fun kv : jsstring * value =>
               let '(k, w) := kv in
               match w with
               | VUndefined => []
               | _ => [(k, json_sent w)]
               end)).

Lemma json_sent_object (fields : list (jsstring * value)) :
  json_sent (VObject fields) = VObject (sent_fields fields).
Proof. reflexivity. Qed.

Lemma sent_fields_keys (k : jsstring) (fields : list (jsstring * value)) :
  In k (map fst (sent_fields fields)) -> In k (map fst fields).
Proof.
  induction fields as [| [k' v] rest IH]; simpl; auto.
  rewrite map_app, in_app_iff. intros [H | H]; [| auto].
  left. destruct v; simpl in H; tauto.
Qed.

Lemma lookup_sent_fields (k : jsstring) (fields : list (jsstring * value)) :
  NoDup (map fst fields) ->
  lookup k (sent_fields fields) = json_sent (lookup k fields).
Proof.
  induction fields as [| [k' v] rest IH]; simpl; intros D; auto.
  inversion D as [| ? ? Hk Hrest]; subst.
  destruct (string_strict_eq k k') eqn:E.
  - apply string_strict_eq_spec in E. subst k'.
    destruct v; cbn [app lookup];
      rewrite ?(proj2 (string_strict_eq_spec k k) eq_refl); try reflexivity.
    apply lookup_absent. intros H. apply Hk, sent_fields_keys, H.
  - destruct v; cbn [app lookup]; rewrite ?E; apply IH, Hrest.
Qed.

Lemma sent_field (fields : list (string * value)) (k : string) :
  NoDup (map (fun kv => str (fst kv)) fields) ->
  field (json_sent (obj fields)) k = json_sent (field (obj fields) k).
Proof.
  intros D. unfold obj. rewrite json_sent_object. cbn [field].
  apply lookup_sent_fields. rewrite map_map. exact D.
Qed.

Ltac distinct_keys :=
  cbn [map fst]; repeat constructor; cbn [In];
  intuition (try discriminate).

(** X14: the endpoint reports failure only for [simulateStatus] exactly
    "failed".  On a body that is [null] or [undefined] the handler throws;
    on every other body it answers with status 200, and the [success] that
    it sends is [false] if [simulateStatus] is the string "failed" and
    [true] otherwise, "FAILED" in capitals or an unknown status included. *)
Theorem verify_payment_success_flag (params : value) :
  (nullish params = true ->
   exists e, verify_payment params
             = ([Log "Verifying payment with params:"], inr e))
  /\ (nullish params = false ->
      exists r,
        verify_payment params
        = ([Log "Verifying payment with params:"], inl r)
        /\ reply_status r = 200
        /\ (field params "simulateStatus" = VString (str "failed") ->
            field (sent_body r) "success" = VBool false)
        /\ (field params "simulateStatus" <> VString (str "failed") ->
            field (sent_body r) "success" = VBool true)).
Proof.
  destruct (verify_payment_answers params) as [A B].
  split; [exact A |]. intros N. rewrite (B N).
  exists (verify_payment_reply params). split; [reflexivity |].
  destruct (verify_payment_reply_cases params)
    as [[F ->] | (NF & m & k & st & -> & _)]; unfold sent_body;
    cbn [reply_status reply_body].
  - split; [reflexivity | split; [reflexivity | congruence]].
  - split; [reflexivity | split; [congruence | reflexivity]].
Qed.

Lemma verify_payment_success_flag_witness :
  exists r,
    verify_payment (obj [("simulateStatus", text "FAILED")])
    = ([Log "Verifying payment with params:"], inl r)
    /\ reply_status r = 200
    /\ (field (obj [("simulateStatus", text "FAILED")]) "simulateStatus"
        = VString (str "failed") ->
        field (sent_body r) "success" = VBool false)
    /\ (field (obj [("simulateStatus", text "FAILED")]) "simulateStatus"
        <> VString (str "failed") ->
        field (sent_body r) "success" = VBool true).
Proof.
  apply (proj2 (verify_payment_success_flag
                  (obj [("simulateStatus", text "FAILED")]))).
  reflexivity.
Defined.

(** X15: what the endpoint sends as [transactionId] and [amount], for a body
    that is not [null] or [undefined].  [transactionId] is the [id] of the
    request, as [JSON.stringify] writes it, when that is truthy, and a mock
    id that is not empty otherwise.  Every answer but the failed one has an
    [amount]: the one of the request, as [JSON.stringify] writes it, when
    that is truthy, and 9200 otherwise (also for an amount of 0); the failed
    answer has none.  An amount that is truthy and not a finite number, as
    1e999 is, is sent as [null]; a string or a finite number is sent as it
    is. *)
Theorem verify_payment_defaults (params : value) (r : reply) :
  snd (verify_payment params) = inl r ->
  let id := field params "id" in
  let amount := field params "amount" in
  let failed := VString (str "failed") in
  (truthy id = true -> field (sent_body r) "transactionId" = json_sent id)
  /\ (truthy id = false ->
      exists mock, mock <> EmptyString
                   /\ field (sent_body r) "transactionId" = text mock)
  /\ (field params "simulateStatus" <> failed ->
      (truthy amount = true -> field (sent_body r) "amount" = json_sent amount)
      /\ (truthy amount = false ->
          field (sent_body r) "amount" = VNumber 9200%float)
      /\ (forall x, amount = VNumber x -> truthy amount = true ->
                    PrimFloat.is_finite x = false ->
                    field (sent_body r) "amount" = VNull)
      /\ (forall x, amount = VNumber x -> truthy amount = true ->
                    PrimFloat.is_finite x = true ->
                    field (sent_body r) "amount" = VNumber x)
      /\ (forall s, amount = VString s -> truthy amount = true ->
                    field (sent_body r) "amount" = VString s))
  /\ (field params "simulateStatus" = failed ->
      field (sent_body r) "amount" = VUndefined).
Proof.
  unfold verify_payment. cbn [snd].
  destruct (nullish params); [discriminate |]. intros [= <-]. cbv zeta.
  assert (S9200 : json_sent (VNumber 9200%float) = VNumber 9200%float)
    by reflexivity.
  destruct (verify_payment_reply_cases params)
    as [[F ->] | (N & m & k & st & -> & K & _)]; unfold sent_body;
    cbn [reply_body]; rewrite !sent_field by distinct_keys.
  - change (field (obj _) "transactionId")
      with (or_else (field params "id") (text "mock-failed-transaction")).
    change (field (obj _) "amount") with VUndefined.
    split; [intros T; unfold or_else; rewrite T; reflexivity |].
    split; [intros T; unfold or_else; rewrite T; eexists; split;
            [| reflexivity]; discriminate |].
    split; [congruence | reflexivity].
  - change (field (obj _) "transactionId")
      with (or_else (field params "id") (text k)).
    change (field (obj _) "amount")
      with (or_else (field params "amount") (VNumber 9200%float)).
    split; [intros T; unfold or_else; rewrite T; reflexivity |].
    split; [intros T; unfold or_else; rewrite T; exists k; split;
            [exact K | reflexivity] |].
    split; [| congruence].
    intros _.
    split; [intros T; unfold or_else; rewrite T; reflexivity |].
    split; [intros T; unfold or_else; rewrite T; exact S9200 |].
    split; [| split].
    + intros x E T I. unfold or_else. rewrite T, E. cbn [json_sent].
      rewrite I. reflexivity.
    + intros x E T I. unfold or_else. rewrite T, E. cbn [json_sent].
      rewrite I. rewrite E in T. cbn [truthy] in T.
      destruct (PrimFloat.eqb x 0%float); [discriminate T | reflexivity].
    + intros s E T. unfold or_else. rewrite T, E. reflexivity.
Qed.

Lemma verify_payment_defaults_witness :
  field (sent_body
           (verify_payment_reply (obj [("amount", VNumber infinity)])))
        "amount"
  = VNull.
Proof.
  destruct (verify_payment_defaults (obj [("amount", VNumber infinity)])
              (verify_payment_reply (obj [("amount", VNumber infinity)]))
              eq_refl)
    as (_ & _ & H & _).
  destruct H as (_ & _ & H & _); [vm_compute; discriminate |].
  apply (H infinity); reflexivity.
Defined.

(** ** The checkout handler *)

Section CheckoutExtras.

Variable valid_number : jsstring -> CardValidator.verification.
Variable now : Z.
Variable upstream : fetch_request -> fetch_result.
Variable parseFloat_other : value -> float.
Variable ToNumber_other : value -> float.

Local Notation "'handler'" :=
  (checkout valid_number now upstream parseFloat_other ToNumber_other).
Local Notation "'try_block'" :=
  (checkout_try valid_number now upstream parseFloat_other ToNumber_other).

(** Every answer of the card validation has status 400. *)
Lemma validateCard_status (vn : jsstring -> CardValidator.verification)
    (s : jsstring) (r : response) :
  validateCard vn s = Responds r -> reply_status (reply_of_response r) = 400.
Proof.
  unfold validateCard. destruct s as [| c0 s0] eqn:Es; [discriminate |].
  rewrite <- Es.
  destruct (CardValidator.isPotentiallyValid _); simpl;
    [| intros [= <-]; reflexivity].
  destruct (CardValidator.isValid _); simpl; [| intros [= <-]; reflexivity].
  destruct (CardValidator.card _) as [ct |]; [| discriminate].
  repeat match goal with
         | |- (if ?b then _ else _) = _ -> _ => destruct b
         end; try discriminate; intros [= <-]; reflexivity.
Qed.

Lemma card_stage_status (payload : value) (r : response) :
  card_stage valid_number payload = Responds r ->
  reply_status (reply_of_response r) = 400.
Proof.
  unfold card_stage.
  destruct (card_number payload) as [[| | | | s | |] |]; try discriminate.
  apply validateCard_status.
Qed.

Lemma simulated_card_status (n : jsstring) (r : reply) :
  simulated_card n = Some r -> reply_status r = 400.
Proof.
  unfold simulated_card.
  repeat match goal with
         | |- (if ?b then _ else _) = _ -> _ => destruct b
         end; try discriminate; intros [= <-]; reflexivity.
Qed.

Lemma simulated_amount_status (payload : value) (r : reply) :
  simulated_amount now parseFloat_other ToNumber_other payload = inl r ->
  reply_status r = 200 \/ reply_status r = 400.
Proof.
  unfold simulated_amount.
  destruct (times_100 ToNumber_other (field payload "amount")) as [a | m];
    destruct (truthy (field payload "amount"));
    try destruct (parseFloat parseFloat_other (field payload "amount"))
      as [x | m'];
    repeat match goal with
           | |- (if ?b then _ else _) = _ -> _ => destruct b
           end; try discriminate; intros [= <-]; auto.
Qed.

(** The simulation of the amount throws exactly when the conversion of the
    amount does. *)
Lemma simulated_amount_throws (payload : value) :
  truthy (field payload "amount") = true ->
  (exists m, simulated_amount now parseFloat_other ToNumber_other payload
             = inr m)
  <-> to_string_throws (field payload "amount") = true.
Proof.
  intros T. unfold simulated_amount, parseFloat, times_100. rewrite T.
  destruct (field payload "amount") as [| | b | x | s | items | fields];
    cbn [to_string_throws]; try (split; [| discriminate]; intros [m H];
      repeat match type of H with
             | (if ?b then _ else _) = _ => destruct b
             end; discriminate H).
  - destruct (existsb to_string_throws items).
    + split; eauto.
    + split; [| discriminate]. intros [m H].
      repeat match type of H with
             | (if ?b then _ else _) = _ => destruct b
             end; discriminate H.
  - destruct (existsb _ fields).
    + split; eauto.
    + split; [| discriminate]. intros [m H].
      repeat match type of H with
             | (if ?b then _ else _) = _ => destruct b
             end; discriminate H.
Qed.

Lemma simulation_status (payload : value) (r : reply) :
  simulation now parseFloat_other ToNumber_other payload = inl r ->
  reply_status r = 200 \/ reply_status r = 400.
Proof.
  unfold simulation.
  destruct (card_number payload) as [[| | | | s | |] |]; try discriminate.
  - destruct (simulated_card (strip_whitespace s)) as [r' |] eqn:E.
    + intros [= <-]. right. eapply simulated_card_status, E.
    + apply simulated_amount_status.
  - apply simulated_amount_status.
Qed.

(** The events of the [try] block: the first log line, then what [forward]
    does, when it is reached. *)
Lemma checkout_events (env : environment) (referer_header : option jsstring)
    (payload : value) :
  fst (handler env referer_header payload)
  = fst (try_block env referer_header payload)
    ++ match snd (try_block env referer_header payload) with
       | inl _ => []
       | inr _ => [LogError "Checkout error:"]
       end.
Proof.
  unfold checkout.
  destruct (try_block env referer_header payload) as [events [r | m]]; simpl;
    [rewrite app_nil_r |]; reflexivity.
Qed.

(** X16: a body that is not [null] or [undefined] in which one of the
    required fields is missing or falsy (an amount of 0 or an empty string
    included) is answered with 400 "Missing required fields" in every
    environment, before the card is looked at and without a request to the
    provider; on a body that is [null] or [undefined], as [req.body] is when
    no parser has read one, reading the first field throws and the [catch]
    answers with 500, without a request to the provider either. *)
Theorem checkout_missing_required_field (env : environment)
    (referer_header : option jsstring) (payload : value) :
  (nullish payload = false ->
   truthy (optional_field (field payload "authentication") "entityId") = false
   \/ (exists k, In k ["merchantTransactionId"; "amount"; "currency"; "nonce";
                       "shopperResultUrl"]
                 /\ truthy (field payload k) = false) ->
   handler env referer_header payload
   = ([Log "Checkout payload:"],
      JsonReply 400
        (obj [("error", text "Missing required fields");
              ("details", text "Please provide all required fields for Peach Payments")])))
  /\ (nullish payload = true ->
      fst (handler env referer_header payload)
      = [Log "Checkout payload:"; LogError "Checkout error:"]
      /\ reply_status (snd (handler env referer_header payload)) = 500
      /\ field (reply_body (snd (handler env referer_header payload))) "error"
         = text "Internal server error").
Proof.
  split.
  - intros Hn Hm.
    assert (M : required_field_missing payload = true).
    { unfold required_field_missing.
      destruct Hm as [H | (k & Hk & H)]; [rewrite H; reflexivity |].
      simpl in Hk.
      destruct Hk as [<- | [<- | [<- | [<- | [<- | []]]]]]; rewrite H;
        cbn [negb]; rewrite ?orb_true_r; reflexivity. }
    unfold checkout, checkout_try. rewrite Hn, M. reflexivity.
  - intros Hn. unfold checkout, checkout_try. rewrite Hn.
    repeat split; reflexivity.
Qed.

(** X17: the provider is contacted only in production, only for a body
    with all required fields whose card number, if it has one, is a string
    that the card validation lets through; the request then goes to the
    production endpoint, and its body is the [JSON.stringify] of the
    payload, in which a number that is not finite has become [null]. *)
Theorem checkout_fetch_only_when (env : environment)
    (referer_header : option jsstring) (payload : value)
    (request : fetch_request) :
  In (Fetch request) (fst (handler env referer_header payload)) ->
  not_production env = false
  /\ nullish payload = false
  /\ required_field_missing payload = false
  /\ (card_number payload = None
      \/ exists number, card_number payload = Some (VString number)
                        /\ validateCard valid_number number = Continues)
  /\ request = provider_request env referer_header payload
  /\ url request = "https://secure.peachpayments.com/v2/checkout"
  /\ request_body request = json_sent payload
  /\ (forall x, field payload "amount" = VNumber x ->
                PrimFloat.is_finite x = false ->
                field (request_body request) "amount" = VNull).
Proof.
  rewrite checkout_events. intros Hin.
  assert (Hin' : In (Fetch request) (fst (try_block env referer_header payload))).
  { apply in_app_or in Hin as [H | H]; [exact H |].
    destruct (snd (try_block env referer_header payload));
      [destruct H | destruct H as [H | []]; discriminate H]. }
  clear Hin. unfold checkout_try in Hin'.
  destruct (nullish payload) eqn:N;
    [destruct Hin' as [H | []]; discriminate H |].
  destruct (required_field_missing payload);
    [destruct Hin' as [H | []]; discriminate H |].
  destruct (card_stage valid_number payload) as [r | | e] eqn:C;
    try (destruct Hin' as [H | []]; discriminate H).
  destruct (not_production env) eqn:P;
    [destruct Hin' as [H | []]; discriminate H |].
  assert (Hq : request = provider_request env referer_header payload).
  { unfold forward in Hin'.
    destruct (upstream (provider_request env referer_header payload))
      as [m | st [v |]]; simpl in Hin';
      destruct Hin' as [H | [H | H]]; try discriminate H;
      try (injection H as <-; reflexivity);
      try (destruct H as [H | H]; [discriminate H | destruct H]);
      destruct H. }
  split; [reflexivity |]. split; [reflexivity |]. split; [reflexivity |].
  split.
  - unfold card_stage in C.
    destruct (card_number payload) as [[| | | | s | |] |]; try discriminate C;
      [right; eauto | left; reflexivity].
  - split; [exact Hq |]. subst request. unfold provider_request, peachEndpoint.
    rewrite P. cbn [url request_body].
    split; [reflexivity |]. split; [reflexivity |].
    intros x E I. destruct payload as [| | | | | | fields];
      try discriminate E. cbn [field] in E.
    change (json_sent (VObject fields)) with (VObject (sent_fields fields)).
    cbn [field]. clear - E I.
    induction fields as [| [k v] rest IH]; [discriminate E |].
    cbn [lookup flat_map] in *.
    destruct (string_strict_eq (str "amount") k) eqn:K.
    + subst v. cbn [json_sent app lookup]. rewrite I, K. reflexivity.
    + destruct v; cbn [app lookup]; rewrite ?K; apply IH, E.
Qed.


End CheckoutExtras.

Section CheckoutWithCardValidator.

Variable now : Z.
Variable upstream : fetch_request -> fetch_result.
Variable parseFloat_other : value -> float.
Variable ToNumber_other : value -> float.

Local Notation "'handler'" :=
  (checkout CardValidator.number now upstream parseFloat_other ToNumber_other).

Lemma required_amount_truthy (payload : value) :
  required_field_missing payload = false ->
  truthy (field payload "amount") = true.
Proof.
  unfold required_field_missing. intros H.
  destruct (truthy (field payload "amount")); [reflexivity |].
  cbn [negb] in H. rewrite ?orb_true_r in H.
  destruct (negb _) in H; discriminate H.
Qed.

(** X18: outside production, with the card-validator package, the handler
    answers 500 "Internal server error" in three cases only: the body is
    [null] or [undefined]; or all required fields are there and
    [card.number] is truthy but not a string (a JSON number, say), so that
    [replace] is not a function; or all required fields are there, the card
    (if any) passes the validation and is not a listed test card, and the
    amount is an object or an array whose conversion to a string throws, as
    for [{"toString": 1}]. *)
Theorem checkout_test_mode_500 (env : environment)
    (referer_header : option jsstring) (payload : value) :
  not_production env = true ->
  (reply_status (snd (handler env referer_header payload)) = 500
   <-> nullish payload = true
       \/ (nullish payload = false
           /\ required_field_missing payload = false
           /\ ((exists v, card_number payload = Some v
                          /\ forall s, v <> VString s)
               \/ ((card_number payload = None
                    \/ exists s,
                         card_number payload = Some (VString s)
                         /\ validateCard CardValidator.number s = Continues
                         /\ simulated_card (strip_whitespace s) = None)
                   /\ to_string_throws (field payload "amount") = true)))).
Proof.
  intros P. unfold checkout, checkout_try. rewrite P.
  destruct (nullish payload) eqn:N.
  { cbn [snd reply_status]. split; auto. }
  destruct (required_field_missing payload) eqn:R.
  { cbn [snd reply_status]. split; [discriminate |].
    intros [H | (_ & H & _)]; discriminate H. }
  pose proof (required_amount_truthy _ R) as T.
  pose proof (simulated_amount_throws now parseFloat_other ToNumber_other
                payload T) as A.
  destruct (card_stage CardValidator.number payload) as [r | | e] eqn:C.
  - cbn [snd]. rewrite (card_stage_status _ _ _ C).
    split; [discriminate |].
    unfold card_stage in C.
    intros [H | (_ & _ & [(v & E & Hv) | [[E | (s & E & V & _)] _]])];
      [discriminate H | | |]; rewrite E in C.
    + destruct v; try discriminate C. exfalso. eapply Hv. reflexivity.
    + discriminate C.
    + rewrite V in C. discriminate C.
  - unfold card_stage in C. unfold simulation.
    destruct (card_number payload) as [[| | | | s | |] |] eqn:E;
      try discriminate C.
    + destruct (simulated_card (strip_whitespace s)) as [r' |] eqn:S.
      * cbn [snd]. rewrite (simulated_card_status _ _ S).
        split; [discriminate |].
        intros [H | (_ & _ & [(v & [= <-] & Hv) | [[H | (s' & H & _ & S')] _]])];
          try discriminate H.
        -- exfalso. eapply Hv. reflexivity.
        -- injection H as <-. rewrite S in S'. discriminate S'.
      * destruct (simulated_amount now parseFloat_other ToNumber_other payload)
          as [r' | m] eqn:SA.
        -- cbn [snd]. split.
           ++ destruct (simulated_amount_status _ _ _ _ _ SA) as [H | H];
                rewrite H; discriminate.
           ++ intros [H | (_ & _ & [(v & [= <-] & Hv) | [_ H]])];
                [discriminate H | exfalso; eapply Hv; reflexivity |].
              apply A in H. destruct H as [m H]. discriminate H.
        -- cbn [snd reply_status]. split; [intros _ | reflexivity].
           right. split; [reflexivity |]. split; [reflexivity |]. right.
           split; [right; exists s; auto | apply A; eauto].
    + destruct (simulated_amount now parseFloat_other ToNumber_other payload)
        as [r' | m] eqn:SA.
      * cbn [snd]. split.
        -- destruct (simulated_amount_status _ _ _ _ _ SA) as [H | H];
             rewrite H; discriminate.
        -- intros [H | (_ & _ & [(v & H & _) | [_ H]])];
             [discriminate H | discriminate H |].
           apply A in H. destruct H as [m H]. discriminate H.
      * cbn [snd reply_status]. split; [intros _ | reflexivity].
        right. split; [reflexivity |]. split; [reflexivity |]. right.
        split; [left; reflexivity | apply A; eauto].
  - cbn [snd reply_status]. split; [intros _ | reflexivity].
    right. split; [reflexivity |]. split; [reflexivity |]. left.
    unfold card_stage in C.
    destruct (card_number payload) as [v |]; [| discriminate C].
    exists v. split; [reflexivity |]. intros s ->.
    revert C. apply validateCard_number_with_no_throw.
Qed.

Lemma includes_spec (l : list string) (s : jsstring) :
  includes l s = true -> exists c, In c l /\ s = str c.
Proof.
  unfold includes. intros H. apply existsb_exists in H as (c & Hc & E).
  apply string_strict_eq_spec in E. eauto.
Qed.

(** X19: every listed test card reaches its simulated answer: outside
    production, a payload with the required fields whose card number is
    one of the nine, with or without white space, passes the card
    validation and is answered with status 400 and the code of its list. *)
Theorem checkout_simulated_cards (env : environment)
    (referer_header : option jsstring) (payload : value) (number : jsstring)
    (cards : list string) (code : string) :
  not_production env = true ->
  nullish payload = false ->
  required_field_missing payload = false ->
  card_number payload = Some (VString number) ->
  In (cards, code)
     [(failingCardNumbers, "ERROR"); (declinedCardNumbers, "DECLINED");
      (expiredCardNumbers, "EXPIRED");
      (insufficientFundsCards, "INSUFFICIENT_FUNDS")] ->
  includes cards (strip_whitespace number) = true ->
  validateCard CardValidator.number number = Continues
  /\ reply_status (snd (handler env referer_header payload)) = 400
  /\ field (reply_body (snd (handler env referer_header payload))) "code"
     = text code.
Proof.
  intros P N R C L I.
  destruct (includes_spec _ _ I) as (c & Hc & E).
  assert (W : str c <> [] ->
              validateCard CardValidator.number number
              = validateCard CardValidator.number (str c)).
  { intros Hne. rewrite <- E. apply validateCard_strip. rewrite E. exact Hne. }
  unfold checkout, checkout_try, card_stage, simulation.
  rewrite P, N, R, C, E. clear P N R C E I.
  simpl in L.
  destruct L as [L | [L | [L | [L | []]]]]; injection L as <- <-;
    simpl in Hc;
    repeat (destruct Hc as [<- | Hc];
            [rewrite W by discriminate;
             replace (validateCard CardValidator.number (str _))
               with Continues by (vm_compute; reflexivity);
             split; [reflexivity | split; vm_compute; reflexivity] |]);
    destruct Hc.
Qed.

End CheckoutWithCardValidator.


Lemma checkout_missing_required_field_witness :
  checkout CardValidator.number 1700000000000 example_provider
    (fun _ => 0%float) (fun _ => 0%float) example_production None
    (obj [("authentication", obj [("entityId", text "8ac7a4c9")]);
          ("merchantTransactionId", text "order-17");
          ("amount", VNumber 0%float);
          ("currency", text "ZAR");
          ("nonce", text "n-1");
          ("shopperResultUrl", text "https://shop.example/result")])
  = ([Log "Checkout payload:"],
     JsonReply 400
       (obj [("error", text "Missing required fields");
             ("details", text "Please provide all required fields for Peach Payments")])).
Proof.
  apply (proj1 (checkout_missing_required_field CardValidator.number
                  1700000000000 example_provider (fun _ => 0%float)
                  (fun _ => 0%float) example_production None _));
    [reflexivity |].
  right. exists "amount". split; [simpl; auto | reflexivity].
Defined.

Lemma checkout_fetch_only_when_witness :
  not_production example_production = false
  /\ nullish (example_payload (obj [("number", text "4242 4242 4242 4242")]))
     = false
  /\ required_field_missing
       (example_payload (obj [("number", text "4242 4242 4242 4242")]))
     = false
  /\ (card_number
        (example_payload (obj [("number", text "4242 4242 4242 4242")]))
      = None
      \/ exists number,
           card_number
             (example_payload (obj [("number", text "4242 4242 4242 4242")]))
           = Some (VString number)
           /\ validateCard CardValidator.number number = Continues)
  /\ provider_request example_production None
       (example_payload (obj [("number", text "4242 4242 4242 4242")]))
     = provider_request example_production None
         (example_payload (obj [("number", text "4242 4242 4242 4242")]))
  /\ url (provider_request example_production None
            (example_payload (obj [("number", text "4242 4242 4242 4242")])))
     = "https://secure.peachpayments.com/v2/checkout"
  /\ request_body
       (provider_request example_production None
          (example_payload (obj [("number", text "4242 4242 4242 4242")])))
     = json_sent
         (example_payload (obj [("number", text "4242 4242 4242 4242")]))
  /\ (forall x,
         field (example_payload (obj [("number", text "4242 4242 4242 4242")]))
               "amount"
         = VNumber x ->
         PrimFloat.is_finite x = false ->
         field (request_body
                  (provider_request example_production None
                     (example_payload
                        (obj [("number", text "4242 4242 4242 4242")]))))
               "amount"
         = VNull).
Proof.
  apply (checkout_fetch_only_when CardValidator.number 1700000000000
           example_provider (fun _ => 0%float) (fun _ => 0%float)).
  vm_compute. right. left. reflexivity.
Defined.


Lemma checkout_test_mode_500_witness :
  reply_status
    (snd (checkout CardValidator.number 1700000000000 example_provider
            (fun _ => 0%float) (fun _ => 0%float) example_test None
            (obj [("authentication", obj [("entityId", text "8ac7a4c9")]);
                  ("merchantTransactionId", text "order-17");
                  ("amount", obj [("toString", VNumber 1%float);
                                  ("valueOf", VNumber 1%float)]);
                  ("currency", text "ZAR");
                  ("nonce", text "n-1");
                  ("shopperResultUrl", text "https://shop.example/result")])))
  = 500.
Proof.
  apply (proj2 (checkout_test_mode_500 1700000000000 example_provider
                  (fun _ => 0%float) (fun _ => 0%float) example_test None
                  _ eq_refl)).
  right. split; [reflexivity |]. split; [reflexivity |]. right.
  split; [left; reflexivity | reflexivity].
Defined.

Lemma checkout_simulated_cards_witness :
  validateCard CardValidator.number (str "4000 0000 0000 0002") = Continues
  /\ reply_status
       (snd (example_checkout example_test
               (obj [("number", text "4000 0000 0000 0002")])))
     = 400
  /\ field (reply_body
              (snd (example_checkout example_test
                      (obj [("number", text "4000 0000 0000 0002")]))))
           "code"
     = text "DECLINED".
Proof.
  apply (checkout_simulated_cards 1700000000000 example_provider
           (fun _ => 0%float) (fun _ => 0%float) example_test None
           (example_payload (obj [("number", text "4000 0000 0000 0002")]))
           (str "4000 0000 0000 0002") declinedCardNumbers "DECLINED");
    try reflexivity.
  simpl. auto.
Defined.
